(** * Bloblang documentation helpers and the redis_streams writer

    A shallow embedding of [internal/docs/bloblang.go] (the two lint
    functions, [methodForCat], and the two markdown generators) and of the
    redis_streams output writer ([newRedisStreamsWriter], [WriteBatch]),
    followed by the properties proved about them.

    Conventions.  A Go [string] is a Rocq [string] (a sequence of bytes); a Go
    [int] is a [Z]; a slice is a [list]; a Go [map] is a [gmap]; a function
    returning [(T, error)] returns a [result T].  Collaborators that live in
    other packages are Section variables, so that every statement holds for
    whatever they are; the concrete ones of [Module Sample] only serve to run
    the definitions on inputs. *)

From Stdlib Require Import ZArith Ascii String List Bool Lia.
From stdpp Require Import gmap strings list.

Local Open Scope Z_scope.

(** ** Go prelude: bytes, runes, errors *)

Definition rune : Type := Z.

(** The numeric value of one byte of a string. *)
Definition byteVal (c : ascii) : Z := Z.of_N (N_of_ascii c).

(** U+FFFD, what an invalid byte decodes to. *)
Definition RuneError : rune := 65533.

Definition between (lo hi b : Z) : bool := (lo <=? b) && (b <=? hi).

(** The range the second byte of a sequence must lie in, by its first byte
    (Go's [utf8] accept ranges); [None] when the first byte starts nothing. *)
Definition acceptRange (b0 : Z) : option (Z * Z) :=
  if between 194 223 b0 then Some (128, 191)
  else if b0 =? 224 then Some (160, 191)
  else if between 225 236 b0 then Some (128, 191)
  else if b0 =? 237 then Some (128, 159)
  else if between 238 239 b0 then Some (128, 191)
  else if b0 =? 240 then Some (144, 191)
  else if between 241 243 b0 then Some (128, 191)
  else if b0 =? 244 then Some (128, 143)
  else None.

(** How many bytes the sequence opened by [b0] has (0: none). *)
Definition seqLen (b0 : Z) : nat :=
  if between 194 223 b0 then 2%nat
  else if between 224 239 b0 then 3%nat
  else if between 240 244 b0 then 4%nat
  else 0%nat.

Definition secondOk (b0 b1 : Z) : bool :=
  match acceptRange b0 with
  | Some (lo, hi) => between lo hi b1
  | None => false
  end.

Definition cont (b : Z) : bool := between 128 191 b.

(** The conversion [[]rune(s)]: UTF-8 decoding, every byte that starts no
    well-formed sequence giving one [RuneError]. *)
Fixpoint runes (s : string) : list rune :=
  match s with
  | EmptyString => []
  | String c0 s1 =>
    let b0 := byteVal c0 in
    if b0 <? 128 then b0 :: runes s1
    else
      match s1 with
      | EmptyString => [RuneError]
      | String c1 s2 =>
        let b1 := byteVal c1 in
        if negb (secondOk b0 b1) then RuneError :: runes s1
        else if Nat.eqb (seqLen b0) 2 then
          Z.lor (Z.shiftl (Z.land b0 31) 6) (Z.land b1 63) :: runes s2
        else
          match s2 with
          | EmptyString => RuneError :: runes s1
          | String c2 s3 =>
            let b2 := byteVal c2 in
            if negb (cont b2) then RuneError :: runes s1
            else if Nat.eqb (seqLen b0) 3 then
              Z.lor (Z.shiftl (Z.land b0 15) 12)
                (Z.lor (Z.shiftl (Z.land b1 63) 6) (Z.land b2 63)) :: runes s3
            else
              match s3 with
              | EmptyString => RuneError :: runes s1
              | String c3 s4 =>
                let b3 := byteVal c3 in
                if negb (cont b3) then RuneError :: runes s1
                else
                  Z.lor (Z.shiftl (Z.land b0 7) 18)
                    (Z.lor (Z.shiftl (Z.land b1 63) 12)
                       (Z.lor (Z.shiftl (Z.land b2 63) 6) (Z.land b3 63)))
                  :: runes s4
              end
          end
      end
  end.

(** The string of the bytes of the given values. *)
Definition stringOfBytes (l : list nat) : string :=
  fold_right (fun b s => String (ascii_of_nat b) s) EmptyString l.

(** The line feed, as a string and as a rune. *)
Definition nl : string := String (ascii_of_nat 10) EmptyString.
Definition newline : rune := 10.

Module parser.

(** Modelled from the spec: the type [parser.Error], whose declaration is not
    under src/.  Spec section 3: a ParserError "carries the offset into the
    original source where parsing failed and a message".  [Input] is what the
    lint functions hand to [LineAndColOf]; [Message] is what [Error()]
    returns. *)
Record Error : Type := mkError { Input : nat; Message : string }.

(** The scan behind [LineAndColOf]: walk [offset] runes of the source, or as
    many as there are, keeping the current line and column. *)
Fixpoint scan (source : list rune) (offset : nat) (line col : Z) : Z * Z :=
  match offset, source with
  | O, _ => (line, col)
  | S _, [] => (line, col)
  | S n, c :: rest =>
    if c =? newline then scan rest n (line + 1) 1
    else scan rest n line (col + 1)
  end.

(** Modelled from the spec: the function [parser.LineAndColOf], which is not
    under src/.  Spec section 4.6: "one-based line and column counted by
    scanning source for preceding newlines ... must not panic on an offset
    past end-of-input (clamp to end)". *)
Definition LineAndColOf (source : list rune) (offset : nat) : Z * Z :=
  scan source offset 1 1.

End parser.

(** The dynamic types of [error] values this code meets. *)
Inductive error : Type :=
| ParserErr (e : parser.Error)            (* a [*parser.Error] *)
| ErrorString (msg : string)              (* [errors.New], [fmt.Errorf] with %v *)
| WrapError (msg : string) (cause : error) (* [fmt.Errorf] with %w *)
| BatchErr (headline : error) (failed : list failure) (* a [*batch.Error] *)
with failure : Type :=
| Failed (index : nat) (err : error).

(** [err.Error()]. *)
Fixpoint errorText (err : error) : string :=
  match err with
  | ParserErr e => parser.Message e
  | ErrorString msg => msg
  | WrapError msg _ => msg
  | BatchErr headline _ => errorText headline
  end.

(** A Go [(T, error)] return, of which exactly one side is set. *)
Inductive result (T : Type) : Type :=
| Ok (v : T)
| Err (e : error).
Arguments Ok {T} v.
Arguments Err {T} e.

(** ** Package docs: linting a mapping or an interpolated field *)

(** Modelled from the spec: the type [Lint] of package docs, declared in a
    file that is not under src/.  Spec section 6: the lint contract is the
    triple (line, column, message).  These are the fields the two lint
    functions set or pass on. *)
Record Lint : Type := mkLint { Line : Z; Column : Z; What : string }.

Section DocsLint.

(** The dynamic values of a config field that are not strings. *)
Variable Other : Type.

(** A config field value, of type [interface{}]. *)
Inductive any : Type :=
| AnyString (s : string)
| AnyOther (o : Other).

(** The compiled artifacts, of which the lint functions keep nothing. *)
Variables Executor Expression : Type.

(** [bloblang.NewMapping], [bloblang.NewField], [parser.LineAndColOf] and
    [NewLintError]: code outside this file. *)
Variable NewMapping : string -> string -> result Executor.
Variable NewField : string -> result Expression.
Variable LineAndColOf : list rune -> nat -> Z * Z.
Variable NewLintError : Z -> string -> Lint.

Definition LintBloblangMapping (v : any) : list Lint :=
  match v with
  | AnyOther _ => []
  | AnyString str =>
    match NewMapping "" str with
    | Ok _ => []
    | Err (ParserErr mErr) =>
      let '(line, col) := LineAndColOf (runes str) (parser.Input mErr) in
      let lint := NewLintError line (errorText (ParserErr mErr)) in
      [ {| Line := Line lint; Column := col; What := What lint |} ]
    | Err err => [ NewLintError 0 (errorText err) ]
    end
  end.

Definition LintBloblangField (v : any) : list Lint :=
  match v with
  | AnyOther _ => []
  | AnyString str =>
    match NewField str with
    | Ok _ => []
    | Err (ParserErr mErr) =>
      let '(line, col) := LineAndColOf (runes str) (parser.Input mErr) in
      let lint := NewLintError line (errorText (ParserErr mErr)) in
      [ {| Line := Line lint; Column := col; What := What lint |} ]
    | Err err => [ NewLintError 0 (errorText err) ]
    end
  end.

End DocsLint.

Arguments AnyString {Other} s.
Arguments AnyOther {Other} o.

(** ** Package query: the documentation records

    Modelled from the spec: the types of package query, whose declarations are
    not under src/.  Spec section 3: a spec has a "name, category ...,
    stability status (stable | beta | deprecated | hidden), human description,
    list of Example (summary text, example source snippet, ordered list of
    (input, expected-output) string pairs)"; "a method may override its
    description/examples per category it participates in".  Statuses and
    categories are strings in the source ([string(cat)], [eq .Status "beta"]). *)

Definition Status : Type := string.
Definition FunctionCategory : Type := string.
Definition MethodCategory : Type := string.

Module ExampleSpec.
Record t : Type := mk {
  Mapping : string;
  Summary : string;
  Results : list (string * string)
}.
End ExampleSpec.

Module FunctionSpec.
Record t : Type := mk {
  Status : Status;
  Category : FunctionCategory;
  Name : string;
  Description : string;
  Examples : list ExampleSpec.t
}.
End FunctionSpec.

Module MethodCatSpec.
Record t : Type := mk {
  Category : MethodCategory;
  Description : string;
  Examples : list ExampleSpec.t
}.
End MethodCatSpec.

Module MethodSpec.
Record t : Type := mk {
  Status : Status;
  Name : string;
  Params : list string;
  Description : string;
  Examples : list ExampleSpec.t;
  Categories : list MethodCatSpec.t
}.
End MethodSpec.

(** [len(s) > 0] on a string. *)
Definition nonEmpty (s : string) : bool := (0 <? String.length s)%nat.

(** [len(l) > 0] on a slice. *)
Definition nonEmptySlice {A : Type} (l : list A) : bool := (0 <? length l)%nat.

(** String concatenation of a list of pieces, in order. *)
Definition concatStrings (l : list string) : string :=
  fold_right String.append "" l.

(** ** Package docs: the markdown documents

    [text/template] is modelled by what it writes.  An action writes the
    value it evaluates to, text between actions is written as it stands, and
    a [-}}] removes the white space that follows it up to the next
    non-blank character. *)

Definition dq : string := String (ascii_of_nat 34) EmptyString.

(** Each line followed by a line feed. *)
Definition unlines (l : list string) : string :=
  concatStrings (map (fun line => line +:+ nl) l).

Module functionCategory.
Record t : Type := mk { Name : string; Specs : list FunctionSpec.t }.
End functionCategory.

Module functionsContext.
Record t : Type := mk { Categories : list functionCategory.t }.
End functionsContext.

Module methodCategory.
Record t : Type := mk { Name : string; Specs : list MethodSpec.t }.
End methodCategory.

Module methodsContext.
Record t : Type := mk {
  Categories : list methodCategory.t;
  General : list MethodSpec.t
}.
End methodsContext.

(** The text of [bloblangFunctionsTemplate] from the front matter to the
    first action of the document body. *)
Definition functionsHeader : string :=
  unlines [
    "---";
    "title: Bloblang Functions";
    "sidebar_label: Functions";
    "description: A list of Bloblang functions";
    "---";
    "";
    "<!--";
    "     THIS FILE IS AUTOGENERATED!";
    "";
    "     To make changes please edit the contents of:";
    "     internal/bloblang/query/functions.go";
    "     internal/docs/bloblang.go";
    "-->";
    "";
    "import Tabs from '@theme/Tabs';";
    "import TabItem from '@theme/TabItem';";
    "";
    "Functions can be placed anywhere and allow you to extract information from your environment, generate values, or access data from the underlying message being mapped:";
    "";
    "```coffee";
    "root.doc.id = uuid_v4()";
    "root.doc.received_at = now()";
    "root.doc.host = hostname()";
    "```";
    ""
  ].

(** The text of [bloblangFunctionsTemplate] after the categories. *)
Definition functionsFooter : string :=
  unlines [
    "[error_handling]: /docs/configuration/error_handling";
    "[field_paths]: /docs/configuration/field_paths";
    "[meta_proc]: /docs/components/processors/metadata";
    "[methods.encode]: /docs/guides/bloblang/methods#encode";
    "[methods.string]: /docs/guides/bloblang/methods#string"
  ].

(** The text of [bloblangMethodsTemplate] from the front matter to the first
    action of the document body. *)
Definition methodsHeader : string :=
  unlines [
    "---";
    "title: Bloblang Methods";
    "sidebar_label: Methods";
    "description: A list of Bloblang methods";
    "---";
    "";
    "<!--";
    "     THIS FILE IS AUTOGENERATED!";
    "";
    "     To make changes please edit the contents of:";
    "     internal/bloblang/query/methods.go";
    "     internal/bloblang/query/methods_strings.go";
    "     internal/docs/bloblang.go";
    "-->";
    "";
    "import Tabs from '@theme/Tabs';";
    "import TabItem from '@theme/TabItem';";
    "";
    "Methods provide most of the power in Bloblang as they allow you to augment values and can be added to any expression (including other methods):";
    "";
    "```coffee";
    "root.doc.id = this.thing.id.string().catch(uuid_v4())";
    "root.doc.reduced_nums = this.thing.nums.map_each(";
    "  if this < 10 {";
    "    deleted()";
    "  } else {";
    "    this - 10";
    "  }";
    ")";
    ("root.has_good_taste = [" +:+ dq +:+ "pikachu" +:+ dq +:+ "," +:+ dq +:+ "mewtwo" +:+ dq +:+ "," +:+ dq +:+ "magmar" +:+ dq +:+ "].contains(");
    "  this.user.fav_pokemon";
    ")";
    "```";
    ""
  ].

(** The text of [bloblangMethodsTemplate] after the categories. *)
Definition methodsFooter : string :=
  unlines [
    "[field_paths]: /docs/configuration/field_paths";
    "[methods.encode]: #encode";
    "[methods.string]: #string"
  ].

(** The templates "function_example" and "method_example", which are the
    same text. *)
Definition example_template (e : ExampleSpec.t) : string :=
  (if nonEmpty (ExampleSpec.Summary e)
   then ExampleSpec.Summary e +:+ nl +:+ nl else "")
  +:+ "```coffee" +:+ nl
  +:+ ExampleSpec.Mapping e +:+ nl
  +:+ concatStrings
        (map (fun result =>
                nl +:+ "# In:  " +:+ fst result +:+ nl
                +:+ "# Out: " +:+ snd result +:+ nl)
             (ExampleSpec.Results e))
  +:+ "```" +:+ nl.

(** The body shared by the templates "function_spec" and "method_spec",
    which differ in one word of the beta notice. *)
Definition spec_template (kind name status description : string)
    (examples : list ExampleSpec.t) : string :=
  "### `" +:+ name +:+ "`" +:+ nl +:+ nl
  +:+ (if String.eqb status "beta"
       then "BETA: This " +:+ kind +:+ " is mostly stable but breaking changes could still be made outside of major version releases if a fundamental problem with it is found." +:+ nl +:+ nl
       else "")
  +:+ description +:+ nl
  +:+ concatStrings (map (fun example => nl +:+ example_template example) examples).

Definition function_spec (s : FunctionSpec.t) : string :=
  spec_template "function" (FunctionSpec.Name s) (FunctionSpec.Status s)
    (FunctionSpec.Description s) (FunctionSpec.Examples s).

Definition method_spec (s : MethodSpec.t) : string :=
  spec_template "method" (MethodSpec.Name s) (MethodSpec.Status s)
    (MethodSpec.Description s) (MethodSpec.Examples s).

(** One turn of [{{range $i, $cat := .Categories -}}] of the functions
    document. *)
Definition functionCategory_template (cat : functionCategory.t) : string :=
  "## " +:+ functionCategory.Name cat +:+ nl +:+ nl
  +:+ concatStrings
        (map (fun spec => function_spec spec +:+ nl) (functionCategory.Specs cat)).

(** Executing [bloblangFunctionsTemplate] on a context. *)
Definition functions_template (ctx : functionsContext.t) : string :=
  functionsHeader
  +:+ concatStrings (map functionCategory_template (functionsContext.Categories ctx))
  +:+ functionsFooter.

(** One turn of [{{range $i, $cat := .Categories -}}] of the methods
    document. *)
Definition methodCategory_template (cat : methodCategory.t) : string :=
  "## " +:+ methodCategory.Name cat +:+ nl +:+ nl
  +:+ concatStrings
        (map (fun spec => method_spec spec +:+ nl) (methodCategory.Specs cat)).

(** Executing [bloblangMethodsTemplate] on a context. *)
Definition methods_template (ctx : methodsContext.t) : string :=
  methodsHeader
  +:+ (if nonEmptySlice (methodsContext.General ctx)
       then "## General" +:+ nl +:+ nl
            +:+ concatStrings
                  (map (fun spec => method_spec spec +:+ nl) (methodsContext.General ctx))
       else "")
  +:+ concatStrings (map methodCategory_template (methodsContext.Categories ctx))
  +:+ methodsFooter.

Section FunctionsMarkdown.

(** The category constants of package query and the result of
    [query.FunctionDocs()]. *)
Variables FunctionCategoryGeneral FunctionCategoryMessage
  FunctionCategoryEnvironment FunctionCategoryDeprecated : FunctionCategory.
Variable FunctionDocs : list FunctionSpec.t.

(** The categories the document ranges over, in the order of the source. *)
Definition functionCategories : list FunctionCategory :=
  [ FunctionCategoryGeneral; FunctionCategoryMessage;
    FunctionCategoryEnvironment; FunctionCategoryDeprecated ].

(** The inner loop: [functions] once [specs] has been ranged over. *)
Definition functionsOfCategory (specs : list FunctionSpec.t)
    (cat : FunctionCategory) : functionCategory.t :=
  fold_left
    (fun functions spec =>
       if String.eqb (FunctionSpec.Category spec) cat
       then functionCategory.mk (functionCategory.Name functions)
              (functionCategory.Specs functions ++ [spec])
       else functions)
    specs
    (functionCategory.mk cat []).

(** The outer loop: [ctx] once the categories have been ranged over. *)
Definition buildFunctionsContext (specs : list FunctionSpec.t) : functionsContext.t :=
  fold_left
    (fun ctx cat =>
       let functions := functionsOfCategory specs cat in
       if nonEmptySlice (functionCategory.Specs functions)
       then functionsContext.mk (functionsContext.Categories ctx ++ [functions])
       else ctx)
    functionCategories
    (functionsContext.mk []).

(** The document and the error of [Execute], which is nil: every field the
    template reads exists and every [index] is within a pair. *)
Definition BloblangFunctionsMarkdown : string * option error :=
  let ctx := buildFunctionsContext FunctionDocs in
  (functions_template ctx, None).

End FunctionsMarkdown.

Section MethodsMarkdown.

(** [strings.TrimSpace], the constants of package query and the result of
    [query.MethodDocs()]. *)
Variable TrimSpace : string -> string.
Variables MethodCategoryStrings MethodCategoryNumbers MethodCategoryRegexp
  MethodCategoryTime MethodCategoryCoercion MethodCategoryObjectAndArray
  MethodCategoryParsing MethodCategoryEncoding MethodCategoryDeprecated
  : MethodCategory.
Variable StatusHidden : Status.
Variable MethodDocs : list MethodSpec.t.

(** [spec.Description = d] and [spec.Examples = e] on a copy. *)
Definition setDescription (spec : MethodSpec.t) (d : string) : MethodSpec.t :=
  MethodSpec.mk (MethodSpec.Status spec) (MethodSpec.Name spec)
    (MethodSpec.Params spec) d (MethodSpec.Examples spec)
    (MethodSpec.Categories spec).

Definition setExamples (spec : MethodSpec.t) (e : list ExampleSpec.t) : MethodSpec.t :=
  MethodSpec.mk (MethodSpec.Status spec) (MethodSpec.Name spec)
    (MethodSpec.Params spec) (MethodSpec.Description spec) e
    (MethodSpec.Categories spec).

(** The loop of [methodForCat] over what is left of [s.Categories]. *)
Fixpoint methodForCatFrom (s : MethodSpec.t) (cat : MethodCategory)
    (categories : list MethodCatSpec.t) : MethodSpec.t * bool :=
  match categories with
  | [] => (s, false)
  | c :: rest =>
    if String.eqb (MethodCatSpec.Category c) cat then
      let spec := s in
      let spec :=
        if nonEmpty (MethodCatSpec.Description c)
        then setDescription spec (TrimSpace (MethodCatSpec.Description c))
        else spec in
      let spec :=
        if nonEmptySlice (MethodCatSpec.Examples c)
        then setExamples spec (MethodCatSpec.Examples c)
        else spec in
      (spec, true)
    else methodForCatFrom s cat rest
  end.

Definition methodForCat (s : MethodSpec.t) (cat : MethodCategory)
    : MethodSpec.t * bool :=
  methodForCatFrom s cat (MethodSpec.Categories s).

(** The categories the document ranges over, in the order of the source. *)
Definition methodCategories : list MethodCategory :=
  [ MethodCategoryStrings; MethodCategoryNumbers; MethodCategoryRegexp;
    MethodCategoryTime; MethodCategoryCoercion; MethodCategoryObjectAndArray;
    MethodCategoryParsing; MethodCategoryEncoding; MethodCategoryDeprecated ].

(** The inner loop of the first range: [methods] once [specs] has been
    ranged over. *)
Definition methodsOfCategory (specs : list MethodSpec.t)
    (cat : MethodCategory) : methodCategory.t :=
  fold_left
    (fun methods spec =>
       let '(spec, ok) := methodForCat spec cat in
       if ok
       then methodCategory.mk (methodCategory.Name methods)
              (methodCategory.Specs methods ++ [spec])
       else methods)
    specs
    (methodCategory.mk cat []).

(** The first range: the categories of [ctx]. *)
Definition buildMethodCategories (specs : list MethodSpec.t) : list methodCategory.t :=
  fold_left
    (fun categories cat =>
       let methods := methodsOfCategory specs cat in
       if nonEmptySlice (methodCategory.Specs methods)
       then categories ++ [methods]
       else categories)
    methodCategories
    [].

(** The second range: the general methods of [ctx]. *)
Definition buildGeneral (specs : list MethodSpec.t) : list MethodSpec.t :=
  fold_left
    (fun general spec =>
       if Nat.eqb (length (MethodSpec.Categories spec)) 0
          && negb (String.eqb (MethodSpec.Status spec) StatusHidden)
       then general ++ [setDescription spec (TrimSpace (MethodSpec.Description spec))]
       else general)
    specs
    [].

Definition buildMethodsContext (specs : list MethodSpec.t) : methodsContext.t :=
  methodsContext.mk (buildMethodCategories specs) (buildGeneral specs).

Definition BloblangMethodsMarkdown : string * option error :=
  let ctx := buildMethodsContext MethodDocs in
  (methods_template ctx, None).

End MethodsMarkdown.

(** ** Package redis: the redis_streams writer

    The writer runs one call at a time here: the mutex around [r.client] is
    not modelled.  What a call does to the outside (the commands it hands to
    the client, the lines it logs) is returned as a list of events, in
    order. *)

(** A value of the [Values] map of an XADD: a metadata string or the raw
    body. *)
Inductive redisValue : Type :=
| ValString (v : string)
| ValBytes (b : list Byte.byte).

Module XAddArgs.
Record t : Type := mk {
  ID : string;
  Stream : string;
  MaxLenApprox : Z;
  Values : gmap string redisValue
}.
End XAddArgs.

(** A connected [redis.UniversalClient], by what it answers: the error of one
    XADD, the per-command errors and the error of a pipeline's [Exec], and
    the errors of [Ping] and [Close] (nil is [None]). *)
Module UniversalClient.
Record t : Type := mk {
  XAdd : XAddArgs.t -> option error;
  PipelineExec : list XAddArgs.t -> list (option error) * option error;
  Ping : option error;
  Close : option error
}.
End UniversalClient.

Inductive event : Type :=
| SentXAdd (args : XAddArgs.t)            (* [client.XAdd(args)] *)
| SentPipeline (cmds : list XAddArgs.t)   (* [pipe.Exec()] of the queued commands *)
| Closed                                  (* [client.Close()] *)
| LogInfof (line : string)
| LogErrorf (line : string).

Section RedisStreams.

(** Messages and what the writer takes from other packages: the compiled
    interpolation field and its evaluation [String(index, batch)], the
    metadata filter and the pairs its [Iter] visits on a part, in order, the
    client constructor, and the sentinel error. *)
Variable Part : Type.
Variable AsBytes : Part -> list Byte.byte.
Variable Expression : Type.
Variable NewField : string -> result Expression.
Variable fieldString : Expression -> nat -> list Part -> string.
Variables ExcludeFilterConfig ExcludeFilter : Type.
Variable Filter : ExcludeFilterConfig -> result ExcludeFilter.
Variable Iter : ExcludeFilter -> Part -> list (string * string).
Variable ClientConfig : Type.
Variable clientFromConfig : ClientConfig -> result UniversalClient.t.
Variable ErrNotConnected : error.

(** The fields of [output.RedisStreamsConfig] the writer reads. *)
Record RedisStreamsConfig : Type := mkConfig {
  Config : ClientConfig;
  Stream : string;
  BodyKey : string;
  MaxLenApprox : Z;
  Metadata : ExcludeFilterConfig
}.

(** A [message.Batch]. *)
Definition Batch : Type := list Part.

Record redisStreamsWriter : Type := mkWriter {
  conf : RedisStreamsConfig;
  stream : Expression;
  metaFilter : ExcludeFilter;
  client : option UniversalClient.t
}.

Definition newRedisStreamsWriter (conf : RedisStreamsConfig)
    : result redisStreamsWriter :=
  match NewField (Stream conf) with
  | Err err => Err (ErrorString ("failed to parse expression: " +:+ errorText err))
  | Ok stream =>
    match Filter (Metadata conf) with
    | Err err =>
      Err (WrapError ("failed to construct metadata filter: " +:+ errorText err) err)
    | Ok metaFilter =>
      match clientFromConfig (Config conf) with
      | Err err => Err err
      | Ok _ => Ok (mkWriter conf stream metaFilter None)
      end
    end
  end.

Definition setClient (r : redisStreamsWriter) (c : option UniversalClient.t)
    : redisStreamsWriter :=
  mkWriter (conf r) (stream r) (metaFilter r) c.

Definition Connect (r : redisStreamsWriter)
    : redisStreamsWriter * list event * option error :=
  match clientFromConfig (Config (conf r)) with
  | Err err => (r, [], Some err)
  | Ok client =>
    match UniversalClient.Ping client with
    | Some err => (r, [], Some err)
    | None =>
      (setClient r (Some client),
       [LogInfof ("Pushing messages to Redis stream: " +:+ Stream (conf r) +:+ nl)],
       None)
    end
  end.

Definition disconnect (r : redisStreamsWriter)
    : redisStreamsWriter * list event * option error :=
  match client r with
  | Some c => (setClient r None, [Closed], UniversalClient.Close c)
  | None => (r, [], None)
  end.

(** The closure [partToMap] of [WriteBatch]. *)
Definition partToMap (r : redisStreamsWriter) (p : Part) : gmap string redisValue :=
  let values : gmap string redisValue := ∅ in
  let values :=
    fold_left (fun values kv => <[fst kv := ValString (snd kv)]> values)
      (Iter (metaFilter r) p) values in
  <[BodyKey (conf r) := ValBytes (AsBytes p)]> values.

(** The XADD of the part at index [i] of [msg]. *)
Definition xaddArgs (r : redisStreamsWriter) (msg : Batch) (i : nat) (p : Part)
    : XAddArgs.t :=
  XAddArgs.mk "*" (fieldString (stream r) i msg) (MaxLenApprox (conf r))
    (partToMap r p).

(** [msg.Iter] queueing one XADD per part on the pipeline: the index of the
    next part and the commands queued so far. *)
Definition queueBatch (r : redisStreamsWriter) (msg : Batch) : list XAddArgs.t :=
  snd (fold_left
         (fun st p => let '(i, pipe) := st in (S i, pipe ++ [xaddArgs r msg i p]))
         msg (0%nat, [])).

(** The loop over [cmders]: the batch error, nil when no command failed. *)
Definition collectFailures (cmders : list (option error)) : option error :=
  snd (fold_left
         (fun st res =>
            let '(i, batchErr) := st in
            match res with
            | None => (S i, batchErr)
            | Some e =>
              match batchErr with
              | Some (BatchErr headline failed) =>
                (S i, Some (BatchErr headline (failed ++ [Failed i e])))
              | _ => (S i, Some (BatchErr e [Failed i e]))
              end
            end)
         cmders (0%nat, None)).

(** What both failure paths do: disconnect, log, report not connected. *)
Definition lostConnection (r : redisStreamsWriter) (sent : list event) (err : error)
    : redisStreamsWriter * list event * option error :=
  let '(r', closing, _) := disconnect r in
  (r', sent ++ closing ++ [LogErrorf ("Error from redis: " +:+ errorText err +:+ nl)],
   Some ErrNotConnected).

Definition WriteBatch (r : redisStreamsWriter) (msg : Batch)
    : redisStreamsWriter * list event * option error :=
  match client r with
  | None => (r, [], Some ErrNotConnected)
  | Some client =>
    match msg with
    | [p] =>
      let args := xaddArgs r msg 0 p in
      match UniversalClient.XAdd client args with
      | Some err => lostConnection r [SentXAdd args] err
      | None => (r, [SentXAdd args], None)
      end
    | _ =>
      let pipe := queueBatch r msg in
      match UniversalClient.PipelineExec client pipe with
      | (_, Some err) => lostConnection r [SentPipeline pipe] err
      | (cmders, None) => (r, [SentPipeline pipe], collectFailures cmders)
      end
    end
  end.

(** The XADD commands a list of events handed to the client, in order. *)
Fixpoint commandsOf (events : list event) : list XAddArgs.t :=
  match events with
  | [] => []
  | SentXAdd args :: rest => args :: commandsOf rest
  | SentPipeline cmds :: rest => cmds ++ commandsOf rest
  | _ :: rest => commandsOf rest
  end.

End RedisStreams.

Arguments mkConfig {ExcludeFilterConfig ClientConfig}.
Arguments Config {ExcludeFilterConfig ClientConfig}.
Arguments Stream {ExcludeFilterConfig ClientConfig}.
Arguments BodyKey {ExcludeFilterConfig ClientConfig}.
Arguments MaxLenApprox {ExcludeFilterConfig ClientConfig}.
Arguments Metadata {ExcludeFilterConfig ClientConfig}.
Arguments mkWriter {Expression ExcludeFilterConfig ExcludeFilter ClientConfig}.
Arguments conf {Expression ExcludeFilterConfig ExcludeFilter ClientConfig}.
Arguments stream {Expression ExcludeFilterConfig ExcludeFilter ClientConfig}.
Arguments metaFilter {Expression ExcludeFilterConfig ExcludeFilter ClientConfig}.
Arguments client {Expression ExcludeFilterConfig ExcludeFilter ClientConfig}.
Arguments newRedisStreamsWriter {Expression} NewField
  {ExcludeFilterConfig ExcludeFilter} Filter {ClientConfig} clientFromConfig conf.
Arguments Connect {Expression ExcludeFilterConfig ExcludeFilter ClientConfig}
  clientFromConfig r.
Arguments setClient {Expression ExcludeFilterConfig ExcludeFilter ClientConfig} r c.
Arguments disconnect {Expression ExcludeFilterConfig ExcludeFilter ClientConfig} r.
Arguments partToMap {Part} AsBytes {Expression ExcludeFilterConfig ExcludeFilter}
  Iter {ClientConfig} r p.
Arguments xaddArgs {Part} AsBytes {Expression} fieldString
  {ExcludeFilterConfig ExcludeFilter} Iter {ClientConfig} r msg i p.
Arguments queueBatch {Part} AsBytes {Expression} fieldString
  {ExcludeFilterConfig ExcludeFilter} Iter {ClientConfig} r msg.
Arguments lostConnection {Expression ExcludeFilterConfig ExcludeFilter ClientConfig}
  ErrNotConnected r sent err.
Arguments WriteBatch {Part} AsBytes {Expression} fieldString
  {ExcludeFilterConfig ExcludeFilter} Iter {ClientConfig} ErrNotConnected r msg.

(** ** Concrete collaborators

    Small stand-ins for the code of other packages, on which the definitions
    above can be run. *)

Module Sample.

(** The offset of the first question mark of [s], counted from [offset]. *)
Fixpoint firstQuestionMark (s : string) (offset : nat) : option nat :=
  match s with
  | EmptyString => None
  | String c rest =>
    if Ascii.eqb c "?"%char then Some offset
    else firstQuestionMark rest (S offset)
  end.

(** A compiler that rejects a question mark where it stands, and the source
    [from] for a reason that has no position. *)
Definition compile (str : string) : result unit :=
  if String.eqb str "from" then Err (ErrorString "no file to read from")
  else
    match firstQuestionMark str 0 with
    | Some offset => Err (ParserErr (parser.mkError offset "unexpected ?"))
    | None => Ok tt
    end.

Definition NewMapping (path str : string) : result unit := compile str.
Definition NewField (str : string) : result unit := compile str.

(** An error lint starts in column 1. *)
Definition NewLintError (line : Z) (msg : string) : Lint := mkLint line 1 msg.

Definition isSpace (c : ascii) : bool :=
  let b := byteVal c in between 9 13 b || (b =? 32).

Fixpoint trimLeft (s : string) : string :=
  match s with
  | EmptyString => EmptyString
  | String c rest => if isSpace c then trimLeft rest else s
  end.

Fixpoint trimRight (s : string) : string :=
  match s with
  | EmptyString => EmptyString
  | String c rest =>
    match trimRight rest with
    | EmptyString => if isSpace c then EmptyString else String c EmptyString
    | kept => String c kept
    end
  end.

(** [strings.TrimSpace] on ASCII text. *)
Definition TrimSpace (s : string) : string := trimRight (trimLeft s).

Definition StatusHidden : Status := "hidden".
Definition StatusDeprecated : Status := "deprecated".

(** A deprecated method registered without categories. *)
Definition oldMethod : MethodSpec.t :=
  MethodSpec.mk StatusDeprecated "old" [] " Use new instead. " [] [].

(** A hidden method, without and with a category. *)
Definition hiddenMethod : MethodSpec.t :=
  MethodSpec.mk StatusHidden "secret" [] "Not for the docs." [] [].

Definition hiddenStringsMethod : MethodSpec.t :=
  MethodSpec.mk StatusHidden "secret_upper" [] "Not for the docs."
    [] [MethodCatSpec.mk "Strings" "" []].

Definition upperExample : ExampleSpec.t :=
  ExampleSpec.mk "root.a = this.a.uppercase()" "" [("x", "X")].

(** A method that overrides its description and examples for strings. *)
Definition uppercase : MethodSpec.t :=
  MethodSpec.mk "stable" "uppercase" [] "Upper case." []
    [ MethodCatSpec.mk "Numbers" "" [];
      MethodCatSpec.mk "Strings" "  Upper case of a string.  " [upperExample] ].

Definition deprecatedFunction : FunctionSpec.t :=
  FunctionSpec.mk StatusDeprecated "Deprecated" "old_fn" "Gone soon." [].

Definition hiddenFunction : FunctionSpec.t :=
  FunctionSpec.mk StatusHidden "General" "secret_fn" "Not for the docs." [].

(** A message part: its metadata and its body. *)
Record Part : Type := mkPart {
  meta : list (string * string);
  body : list Byte.byte
}.

Definition metaGet (key : string) (p : Part) : string :=
  match List.find (fun kv => String.eqb (fst kv) key) (meta p) with
  | Some kv => snd kv
  | None => ""
  end.

(** An interpolated field that is a literal followed by the value of the
    metadata key [tenant] of the message it is evaluated on. *)
Definition fieldNew (str : string) : result string :=
  match compile str with
  | Ok _ => Ok str
  | Err err => Err err
  end.

Definition fieldString (e : string) (index : nat) (batch : list Part) : string :=
  match batch !! index with
  | Some p => e +:+ metaGet "tenant" p
  | None => e
  end.

(** A metadata filter that leaves out the keys with one of its prefixes. *)
Definition Filter (prefixes : list string) : result (list string) := Ok prefixes.

Definition Iter (prefixes : list string) (p : Part) : list (string * string) :=
  List.filter
    (fun kv => negb (existsb (fun prefix => String.prefix prefix (fst kv)) prefixes))
    (meta p).

(** A server that accepts everything. *)
Definition acceptingClient : UniversalClient.t :=
  UniversalClient.mk (fun _ => None)
    (fun cmds => (map (fun _ => None) cmds, None)) None None.

Definition clientFromConfig (_ : unit) : result UniversalClient.t := Ok acceptingClient.

(** A server that has gone away. *)
Definition connectionReset : error := ErrorString "connection reset by peer".

Definition refusingClient : UniversalClient.t :=
  UniversalClient.mk (fun _ => Some connectionReset)
    (fun cmds => ([], Some connectionReset)) (Some connectionReset) None.

Definition ErrNotConnected : error :=
  ErrorString "not connected to target source or sink".

Definition streamsConfig (stream : string) : RedisStreamsConfig (list string) unit :=
  mkConfig tt stream "body" 0 ["kafka_"].

(** A connected writer on the stream [events-] followed by the tenant. *)
Definition connectedWriter : redisStreamsWriter string (list string) (list string) unit :=
  mkWriter (streamsConfig "events-") "events-" ["kafka_"] (Some acceptingClient).

Definition hello : list Byte.byte := [Byte.x68; Byte.x69].

Definition partA : Part :=
  mkPart [("tenant", "a"); ("body", "from metadata"); ("kafka_key", "k")] hello.

Definition partB : Part := mkPart [("tenant", "b")] [].

(** The two documents of a registry, with category names of this module's
    choosing. *)
Definition methodsContextOf (specs : list MethodSpec.t) : methodsContext.t :=
  buildMethodsContext TrimSpace "Strings" "Numbers" "Regexp" "Time" "Coercion"
    "ObjectAndArray" "Parsing" "Encoding" "Deprecated" StatusHidden specs.

Definition methodsMarkdown (specs : list MethodSpec.t) : string * option error :=
  BloblangMethodsMarkdown TrimSpace "Strings" "Numbers" "Regexp" "Time" "Coercion"
    "ObjectAndArray" "Parsing" "Encoding" "Deprecated" StatusHidden specs.

Definition functionsContextOf (specs : list FunctionSpec.t) : functionsContext.t :=
  buildFunctionsContext "General" "Message" "Environment" "Deprecated" specs.

Definition functionsMarkdown (specs : list FunctionSpec.t) : string * option error :=
  BloblangFunctionsMarkdown "General" "Message" "Environment" "Deprecated" specs.

End Sample.

Arguments LintBloblangMapping Other {Executor} NewMapping LineAndColOf NewLintError v.
Arguments LintBloblangField Other {Expression} NewField LineAndColOf NewLintError v.

(** What a lint says of a failed compilation of [str]: the coordinates of a
    parser error's position and its message, or line 0 and the message of any
    other error. *)
Definition lintReports (LineAndColOf : list rune -> nat -> Z * Z)
    (str : string) (err : error) (lint : Lint) : Prop :=
  match err with
  | ParserErr mErr =>
    (Line lint, Column lint) = LineAndColOf (runes str) (parser.Input mErr)
    /\ What lint = parser.Message mErr
  | _ => Line lint = 0 /\ What lint = errorText err
  end.

(** A method participates in a category when one of its [Categories] entries
    names it. *)
Definition participates (s : MethodSpec.t) (cat : MethodCategory) : Prop :=
  exists c, c ∈ MethodSpec.Categories s /\ MethodCatSpec.Category c = cat.

(** The entry of [s] for [cat]: the first of [s.Categories] that names it. *)
Definition categoryEntry (s : MethodSpec.t) (cat : MethodCategory)
    : option MethodCatSpec.t :=
  List.find (fun c => String.eqb (MethodCatSpec.Category c) cat)
    (MethodSpec.Categories s).

(** [s] with the description and the examples of the entry [c] where [c]
    has them. *)
Definition overriddenBy (TrimSpace : string -> string) (s : MethodSpec.t)
    (c : MethodCatSpec.t) : MethodSpec.t :=
  MethodSpec.mk (MethodSpec.Status s) (MethodSpec.Name s) (MethodSpec.Params s)
    (if nonEmpty (MethodCatSpec.Description c)
     then TrimSpace (MethodCatSpec.Description c)
     else MethodSpec.Description s)
    (if nonEmptySlice (MethodCatSpec.Examples c)
     then MethodCatSpec.Examples c
     else MethodSpec.Examples s)
    (MethodSpec.Categories s).

(** The names of the methods a context documents, under General or under a
    category. *)
Definition documentedMethodNames (ctx : methodsContext.t) : list string :=
  map MethodSpec.Name
    (methodsContext.General ctx
     ++ concat (map methodCategory.Specs (methodsContext.Categories ctx))).

(** The names of the functions a context documents. *)
Definition documentedFunctionNames (ctx : functionsContext.t) : list string :=
  map FunctionSpec.Name
    (concat (map functionCategory.Specs (functionsContext.Categories ctx))).

(** A hidden method registered without categories. *)
Definition hiddenUncategorised (StatusHidden : Status) (s : MethodSpec.t) : Prop :=
  MethodSpec.Categories s = [] /\ MethodSpec.Status s = StatusHidden.

(** What the inner loop of the first range does with one spec: the copy
    [methodForCat] returns when the spec participates, nothing otherwise. *)
Definition forCategory (TrimSpace : string -> string) (cat : MethodCategory)
    (s : MethodSpec.t) : option MethodSpec.t :=
  let '(spec, ok) := methodForCat TrimSpace s cat in
  if ok then Some spec else None.

(** The number of line feeds of a run of runes. *)
Definition newlinesIn (l : list rune) : nat :=
  length (List.filter (fun c => c =? newline) l).

(** ** Package redis: the rest of the output

    [Close], the constructor [newRedisStreamsOutput] that wraps the writer,
    and the calls the wrapping output makes on a writer. *)

Definition Close {Expression ExcludeFilterConfig ExcludeFilter ClientConfig : Type}
    (r : redisStreamsWriter Expression ExcludeFilterConfig ExcludeFilter ClientConfig)
    : redisStreamsWriter Expression ExcludeFilterConfig ExcludeFilter ClientConfig
      * list event * option error :=
  disconnect r.

Section RedisOutput.

Variable Expression : Type.
Variable NewField : string -> result Expression.
Variables ExcludeFilterConfig ExcludeFilter : Type.
Variable Filter : ExcludeFilterConfig -> result ExcludeFilter.
Variable ClientConfig : Type.
Variable clientFromConfig : ClientConfig -> result UniversalClient.t.

(** [output.Config] with its field [RedisStreams], the fields [MaxInFlight]
    and [Batching] of the latter, which the writer itself does not read, and
    the two constructors of other packages, [output.NewAsyncWriter] and
    [batcher.NewFromConfig]. *)
Variables OutputConfig BatchPolicy AsyncWriter Streamed : Type.
Variable RedisStreams : OutputConfig -> RedisStreamsConfig ExcludeFilterConfig ClientConfig.
Variable MaxInFlight : RedisStreamsConfig ExcludeFilterConfig ClientConfig -> Z.
Variable Batching : RedisStreamsConfig ExcludeFilterConfig ClientConfig -> BatchPolicy.
Variable NewAsyncWriter :
  string -> Z ->
  redisStreamsWriter Expression ExcludeFilterConfig ExcludeFilter ClientConfig ->
  result AsyncWriter.
Variable NewFromConfig : BatchPolicy -> AsyncWriter -> result Streamed.

Definition newRedisStreamsOutput (conf : OutputConfig) : result Streamed :=
  match newRedisStreamsWriter NewField Filter clientFromConfig (RedisStreams conf) with
  | Err err => Err err
  | Ok w =>
    match NewAsyncWriter "redis_streams" (MaxInFlight (RedisStreams conf)) w with
    | Err err => Err err
    | Ok a => NewFromConfig (Batching (RedisStreams conf)) a
    end
  end.

End RedisOutput.

Arguments newRedisStreamsOutput {Expression} NewField
  {ExcludeFilterConfig ExcludeFilter} Filter {ClientConfig} clientFromConfig
  {OutputConfig BatchPolicy AsyncWriter Streamed} RedisStreams MaxInFlight Batching
  NewAsyncWriter NewFromConfig conf.

(** One call on a writer, as the output that owns it makes them. *)
Inductive call (Part : Type) : Type :=
| CallConnect
| CallWriteBatch (msg : list Part)
| CallClose.
Arguments CallConnect {Part}.
Arguments CallWriteBatch {Part} msg.
Arguments CallClose {Part}.

Section RedisCalls.

Variable Part : Type.
Variable AsBytes : Part -> list Byte.byte.
Variable Expression : Type.
Variable fieldString : Expression -> nat -> list Part -> string.
Variables ExcludeFilterConfig ExcludeFilter : Type.
Variable Iter : ExcludeFilter -> Part -> list (string * string).
Variable ClientConfig : Type.
Variable clientFromConfig : ClientConfig -> result UniversalClient.t.
Variable ErrNotConnected : error.

Definition step
    (r : redisStreamsWriter Expression ExcludeFilterConfig ExcludeFilter ClientConfig)
    (c : call Part)
    : redisStreamsWriter Expression ExcludeFilterConfig ExcludeFilter ClientConfig
      * list event * option error :=
  match c with
  | CallConnect => Connect clientFromConfig r
  | CallWriteBatch msg => WriteBatch AsBytes fieldString Iter ErrNotConnected r msg
  | CallClose => Close r
  end.

(** A sequence of calls, one after the other on the writer the previous one
    left: the writer at the end and all the events, in order. *)
Fixpoint run
    (r : redisStreamsWriter Expression ExcludeFilterConfig ExcludeFilter ClientConfig)
    (calls : list (call Part))
    : redisStreamsWriter Expression ExcludeFilterConfig ExcludeFilter ClientConfig
      * list event :=
  match calls with
  | [] => (r, [])
  | c :: rest =>
    let '(r', events, _) := step r c in
    let '(r'', later) := run r' rest in
    (r'', events ++ later)
  end.

End RedisCalls.

Arguments step {Part} AsBytes {Expression} fieldString
  {ExcludeFilterConfig ExcludeFilter} Iter {ClientConfig} clientFromConfig
  ErrNotConnected r c.
Arguments run {Part} AsBytes {Expression} fieldString
  {ExcludeFilterConfig ExcludeFilter} Iter {ClientConfig} clientFromConfig
  ErrNotConnected r calls.

(** The failures of the commands of a pipeline, from the index [i] of the
    first of them on. *)
Fixpoint failuresFrom (i : nat) (cmders : list (option error)) : list failure :=
  match cmders with
  | [] => []
  | None :: rest => failuresFrom (S i) rest
  | Some e :: rest => Failed i e :: failuresFrom (S i) rest
  end.

(** The value of the last pair of [pairs] under the key [k]. *)
Definition lastValue (k : string) (pairs : list (string * string)) : option string :=
  snd <$> List.find (fun kv => String.eqb (fst kv) k) (rev pairs).

(** More stand-ins: a writer that is not connected yet, a server one of
    whose commands fails, a function the documents leave out, and a method
    of a category the methods document does not range over. *)
Module SampleMore.

Definition freshWriter : redisStreamsWriter string (list string) (list string) unit :=
  mkWriter (Sample.streamsConfig "events-") "events-" ["kafka_"] None.

Definition streamFull : error := ErrorString "OOM command not allowed".

(** Every second command of a pipeline fails. *)
Fixpoint alternate (fails : bool) (cmds : list XAddArgs.t) : list (option error) :=
  match cmds with
  | [] => []
  | _ :: rest => (if fails then Some streamFull else None) :: alternate (negb fails) rest
  end.

Definition flakyClient : UniversalClient.t :=
  UniversalClient.mk (fun _ => None) (fun cmds => (alternate false cmds, None)) None None.

Definition flakyWriter : redisStreamsWriter string (list string) (list string) unit :=
  mkWriter (Sample.streamsConfig "events-") "events-" ["kafka_"] (Some flakyClient).

Definition uncategorisedFunction : FunctionSpec.t :=
  FunctionSpec.mk Sample.StatusHidden "" "internal_fn" "No category." [].

Definition customMethod : MethodSpec.t :=
  MethodSpec.mk "stable" "custom" [] "Of a category of its own." []
    [MethodCatSpec.mk "Custom" "" []].

(** An output that takes any writer, and one whose stream cannot parse. *)
Definition NewAsyncWriter (name : string) (maxInFlight : Z)
    (w : redisStreamsWriter string (list string) (list string) unit)
    : result (string * Z) :=
  if (0 <? maxInFlight) then Ok (name, maxInFlight)
  else Err (ErrorString "max_in_flight must be greater than zero").

Definition NewFromConfig (policy : unit) (a : string * Z) : result (string * Z) := Ok a.

Definition outputOf (stream : string) (maxInFlight : Z) : result (string * Z) :=
  newRedisStreamsOutput Sample.fieldNew Sample.Filter Sample.clientFromConfig
    (fun conf : RedisStreamsConfig (list string) unit * Z => fst conf)
    (fun _ => maxInFlight) (fun _ => tt) NewAsyncWriter NewFromConfig
    (Sample.streamsConfig stream, maxInFlight).

End SampleMore.

(** * Properties *)

(** ** Runes *)

(** ASCII, then the two-, three- and four-byte sequences of U+00E9, U+20AC
    and U+1F600. *)
Example runes_well_formed :
  runes (stringOfBytes [97; 195; 169; 226; 130; 172; 240; 159; 152; 128]%nat)
  = [97; 233; 8364; 128512].
Proof. vm_compute. reflexivity. Qed.

(** A byte that starts no sequence, a sequence cut short, an overlong
    encoding and a surrogate give one [RuneError] per byte. *)
Example runes_ill_formed :
  runes (stringOfBytes [255; 97; 226; 130]%nat)
  = [RuneError; 97; RuneError; RuneError]
  /\ runes (stringOfBytes [192; 128]%nat) = [RuneError; RuneError]
  /\ runes (stringOfBytes [237; 160; 128]%nat) = [RuneError; RuneError; RuneError].
Proof. vm_compute. repeat split. Qed.

(** ** The lint functions *)

Section LintFacts.

Variables Other Executor Expression : Type.
Variable NewMapping : string -> string -> result Executor.
Variable NewField : string -> result Expression.
Variable LineAndColOf : list rune -> nat -> Z * Z.
Variable NewLintError : Z -> string -> Lint.

(** A value that is not a string gives no lint. *)
Lemma LintBloblangMapping_not_string (o : Other) :
  LintBloblangMapping Other NewMapping LineAndColOf NewLintError (AnyOther o) = [].
Proof. reflexivity. Qed.

Lemma LintBloblangField_not_string (o : Other) :
  LintBloblangField Other NewField LineAndColOf NewLintError (AnyOther o) = [].
Proof. reflexivity. Qed.

(** A string that compiles gives no lint. *)
Lemma LintBloblangMapping_compiles (str : string) (exec : Executor) :
  NewMapping "" str = Ok exec ->
  LintBloblangMapping Other NewMapping LineAndColOf NewLintError (AnyString str) = [].
Proof. intros Hok. simpl. now rewrite Hok. Qed.

Lemma LintBloblangField_compiles (str : string) (e : Expression) :
  NewField str = Ok e ->
  LintBloblangField Other NewField LineAndColOf NewLintError (AnyString str) = [].
Proof. intros Hok. simpl. now rewrite Hok. Qed.

(** A lint comes from a string that failed to compile. *)
Lemma LintBloblangMapping_lint_inv (v : any Other) :
  LintBloblangMapping Other NewMapping LineAndColOf NewLintError v <> [] ->
  exists str err, v = AnyString str /\ NewMapping "" str = Err err.
Proof.
  destruct v as [str | o]; simpl; [| congruence].
  destruct (NewMapping "" str) as [exec | err] eqn:Hc; [congruence |].
  intros _. now exists str, err.
Qed.

Lemma LintBloblangField_lint_inv (v : any Other) :
  LintBloblangField Other NewField LineAndColOf NewLintError v <> [] ->
  exists str err, v = AnyString str /\ NewField str = Err err.
Proof.
  destruct v as [str | o]; simpl; [| congruence].
  destruct (NewField str) as [e | err] eqn:Hc; [congruence |].
  intros _. now exists str, err.
Qed.

(** C8: a value that is not a string gives no lint, a string that compiles
    gives no lint, and so a lint is only ever produced for a string whose
    compilation fails; this holds of [LintBloblangMapping] and of
    [LintBloblangField]. *)
Theorem lint_only_on_failed_string :
  (forall o : Other,
      LintBloblangMapping Other NewMapping LineAndColOf NewLintError (AnyOther o) = []
      /\ LintBloblangField Other NewField LineAndColOf NewLintError (AnyOther o) = [])
  /\ (forall str exec, NewMapping "" str = Ok exec ->
        LintBloblangMapping Other NewMapping LineAndColOf NewLintError (AnyString str) = [])
  /\ (forall str e, NewField str = Ok e ->
        LintBloblangField Other NewField LineAndColOf NewLintError (AnyString str) = [])
  /\ (forall v : any Other,
        LintBloblangMapping Other NewMapping LineAndColOf NewLintError v <> [] ->
        exists str err, v = AnyString str /\ NewMapping "" str = Err err)
  /\ (forall v : any Other,
        LintBloblangField Other NewField LineAndColOf NewLintError v <> [] ->
        exists str err, v = AnyString str /\ NewField str = Err err).
Proof.
  repeat split.
  - apply LintBloblangMapping_compiles.
  - apply LintBloblangField_compiles.
  - apply LintBloblangMapping_lint_inv.
  - apply LintBloblangField_lint_inv.
Qed.

(** [NewLintError] keeps the line and the message it is given. *)
Hypothesis NewLintError_Line : forall line msg, Line (NewLintError line msg) = line.
Hypothesis NewLintError_What : forall line msg, What (NewLintError line msg) = msg.

Lemma LintBloblangMapping_failure (str : string) (err : error) :
  NewMapping "" str = Err err ->
  exists lint,
    LintBloblangMapping Other NewMapping LineAndColOf NewLintError (AnyString str) = [lint]
    /\ lintReports LineAndColOf str err lint.
Proof.
  intros Hc. simpl. rewrite Hc.
  destruct err as [mErr | msg | msg cause | headline failed]; simpl.
  - destruct (LineAndColOf (runes str) (parser.Input mErr)) as [line col] eqn:Hlc.
    eexists. split; [reflexivity |]. simpl.
    now rewrite NewLintError_Line, NewLintError_What.
  - eexists. split; [reflexivity |]. now rewrite NewLintError_Line, NewLintError_What.
  - eexists. split; [reflexivity |]. now rewrite NewLintError_Line, NewLintError_What.
  - eexists. split; [reflexivity |]. now rewrite NewLintError_Line, NewLintError_What.
Qed.

Lemma LintBloblangField_failure (str : string) (err : error) :
  NewField str = Err err ->
  exists lint,
    LintBloblangField Other NewField LineAndColOf NewLintError (AnyString str) = [lint]
    /\ lintReports LineAndColOf str err lint.
Proof.
  intros Hc. simpl. rewrite Hc.
  destruct err as [mErr | msg | msg cause | headline failed]; simpl.
  - destruct (LineAndColOf (runes str) (parser.Input mErr)) as [line col] eqn:Hlc.
    eexists. split; [reflexivity |]. simpl.
    now rewrite NewLintError_Line, NewLintError_What.
  - eexists. split; [reflexivity |]. now rewrite NewLintError_Line, NewLintError_What.
  - eexists. split; [reflexivity |]. now rewrite NewLintError_Line, NewLintError_What.
  - eexists. split; [reflexivity |]. now rewrite NewLintError_Line, NewLintError_What.
Qed.

(** C2: when compiling the string [str] fails with [err], the lint function
    returns exactly one lint; for a parser error its line and column are
    those [LineAndColOf] computes from the error's position in [str] and its
    message is the parser error's; for any other error its line is 0 and its
    message is the error's.  This holds of mappings and of fields. *)
Theorem lint_of_failed_compilation (str : string) (err : error) :
  (NewMapping "" str = Err err ->
   exists lint,
     LintBloblangMapping Other NewMapping LineAndColOf NewLintError (AnyString str) = [lint]
     /\ lintReports LineAndColOf str err lint)
  /\ (NewField str = Err err ->
      exists lint,
        LintBloblangField Other NewField LineAndColOf NewLintError (AnyString str) = [lint]
        /\ lintReports LineAndColOf str err lint).
Proof.
  split.
  - apply LintBloblangMapping_failure.
  - apply LintBloblangField_failure.
Qed.

End LintFacts.

(** A parser error on the second line of a mapping is reported at its line
    and column, with the parser's message. *)
Example LintBloblangMapping_second_line :
  LintBloblangMapping unit Sample.NewMapping parser.LineAndColOf Sample.NewLintError
    (AnyString ("root.a = 1" +:+ nl +:+ "root.b = ?"))
  = [mkLint 2 10 "unexpected ?"].
Proof. vm_compute. reflexivity. Qed.

Example LintBloblangField_other_error :
  LintBloblangField unit Sample.NewField parser.LineAndColOf Sample.NewLintError
    (AnyString "from")
  = [mkLint 0 1 "no file to read from"].
Proof. vm_compute. reflexivity. Qed.

Lemma lint_of_failed_compilation_witness :
  exists lint,
    LintBloblangMapping unit Sample.NewMapping parser.LineAndColOf Sample.NewLintError
      (AnyString ("root.a = 1" +:+ nl +:+ "root.b = ?")) = [lint]
    /\ lintReports parser.LineAndColOf ("root.a = 1" +:+ nl +:+ "root.b = ?")
         (ParserErr (parser.mkError 20 "unexpected ?")) lint.
Proof.
  apply (proj1 (lint_of_failed_compilation unit unit unit
                  Sample.NewMapping Sample.NewField parser.LineAndColOf
                  Sample.NewLintError (fun _ _ => eq_refl) (fun _ _ => eq_refl)
                  ("root.a = 1" +:+ nl +:+ "root.b = ?")
                  (ParserErr (parser.mkError 20 "unexpected ?")))).
  vm_compute. reflexivity.
Defined.

(** ** Line and column of an offset *)

Lemma newlinesIn_cons (c : rune) (l : list rune) :
  newlinesIn (c :: l)
  = if c =? newline then S (newlinesIn l) else newlinesIn l.
Proof. unfold newlinesIn. simpl. now destruct (c =? newline). Qed.

Lemma scan_spec (source : list rune) :
  forall (offset : nat) (line col : Z),
  exists pre post,
    take offset source = pre ++ post
    /\ (newline ∉ post)
    /\ fst (parser.scan source offset line col)
       = line + Z.of_nat (newlinesIn (take offset source))
    /\ ((pre = [] /\ snd (parser.scan source offset line col)
                     = col + Z.of_nat (length post))
        \/ (last pre = Some newline
            /\ snd (parser.scan source offset line col)
               = 1 + Z.of_nat (length post))).
Proof.
  induction source as [| c rest IH]; intros offset line col.
  - exists [], []. destruct offset; simpl;
      (repeat split; [apply not_elem_of_nil | unfold newlinesIn; simpl; lia
                     | left; split; [reflexivity | lia]]).
  - destruct offset as [| n].
    + exists [], []. simpl.
      repeat split; [apply not_elem_of_nil | unfold newlinesIn; simpl; lia
                    | left; split; [reflexivity | lia]].
    + simpl. rewrite newlinesIn_cons. destruct (c =? newline) eqn:Hc.
      * apply Z.eqb_eq in Hc. subst c.
        destruct (IH n (line + 1) 1) as (pre & post & Htake & Hpost & Hline & Hcol).
        exists (newline :: pre), post.
        split; [now rewrite Htake |]. split; [exact Hpost |].
        split; [rewrite Hline; lia |].
        right. split.
        { destruct Hcol as [[-> _] | [Hlast _]]; [reflexivity |].
          rewrite last_cons, Hlast. reflexivity. }
        destruct Hcol as [[_ ->] | [_ ->]]; lia.
      * apply Z.eqb_neq in Hc.
        destruct (IH n line (col + 1)) as (pre & post & Htake & Hpost & Hline & Hcol).
        destruct Hcol as [[-> Hcol] | [Hlast Hcol]].
        -- exists [], (c :: post).
           split; [now rewrite Htake |]. split.
           { intros Hin. apply elem_of_cons in Hin as [Heq | Hin]; [congruence | tauto]. }
           split; [exact Hline |].
           left. split; [reflexivity |]. rewrite Hcol. simpl length. lia.
        -- exists (c :: pre), post.
           split; [now rewrite Htake |]. split; [exact Hpost |].
           split; [exact Hline |].
           right. split; [| exact Hcol].
           rewrite last_cons, Hlast. reflexivity.
Qed.

Lemma scan_clamp (source : list rune) :
  forall (offset : nat) (line col : Z),
    parser.scan source offset line col
    = parser.scan source (Nat.min offset (length source)) line col.
Proof.
  induction source as [| c rest IH]; intros offset line col.
  - destruct offset; reflexivity.
  - destruct offset as [| n]; [reflexivity |].
    simpl. destruct (c =? newline); apply IH.
Qed.

(** C6: [LineAndColOf source offset] is one-based: its line is one more than
    the number of line feeds among the runes before the offset, and its
    column one more than the number of runes since the last of them (or since
    the start); it is defined for every offset, an offset past the end
    giving what the end of the source gives; and in the source a, LF, b, LF,
    c, d the offset 4 of the c is line 3, column 1. *)
Theorem LineAndColOf_one_based_clamped (source : list rune) (offset : nat) :
  (exists pre post,
      take offset source = pre ++ post
      /\ (newline ∉ post)
      /\ (pre = [] \/ last pre = Some newline)
      /\ parser.LineAndColOf source offset
         = (1 + Z.of_nat (newlinesIn (take offset source)),
            1 + Z.of_nat (length post)))
  /\ parser.LineAndColOf source offset
     = parser.LineAndColOf source (Nat.min offset (length source))
  /\ parser.LineAndColOf (runes ("a" +:+ nl +:+ "b" +:+ nl +:+ "cd")) 4 = (3, 1).
Proof.
  split; [| split; [apply scan_clamp | reflexivity]].
  unfold parser.LineAndColOf.
  destruct (scan_spec source offset 1 1) as (pre & post & Htake & Hpost & Hline & Hcol).
  exists pre, post. split; [exact Htake |]. split; [exact Hpost |].
  destruct (parser.scan source offset 1 1) as [line col]; simpl in *.
  destruct Hcol as [[Hpre ->] | [Hlast ->]]; subst line; (split; [tauto | reflexivity]).
Qed.

(** ** The functions document *)

Lemma eqb_decide (a b : string) : String.eqb a b = bool_decide (a = b).
Proof.
  destruct (String.eqb_spec a b) as [Heq | Hne].
  - now rewrite bool_decide_eq_true_2.
  - now rewrite bool_decide_eq_false_2.
Qed.

Lemma nonEmptySlice_true {A : Type} (l : list A) : nonEmptySlice l = true <-> l <> [].
Proof. destruct l; cbn; split; intros H; congruence. Qed.

Section FunctionsFacts.

Variables FunctionCategoryGeneral FunctionCategoryMessage
  FunctionCategoryEnvironment FunctionCategoryDeprecated : FunctionCategory.
Variable FunctionDocs : list FunctionSpec.t.

(** The inner loop keeps, in their order, the specs of the category. *)
Lemma functionsOfCategory_from (specs acc : list FunctionSpec.t) (cat : FunctionCategory) :
  fold_left
    (fun functions spec =>
       if String.eqb (FunctionSpec.Category spec) cat
       then functionCategory.mk (functionCategory.Name functions)
              (functionCategory.Specs functions ++ [spec])
       else functions)
    specs (functionCategory.mk cat acc)
  = functionCategory.mk cat
      (acc ++ filter (fun s => FunctionSpec.Category s = cat) specs).
Proof.
  revert acc. induction specs as [| spec specs IH]; intros acc; simpl.
  - now rewrite app_nil_r.
  - rewrite eqb_decide.
    destruct (decide (FunctionSpec.Category spec = cat)) as [Heq | Hne].
    + rewrite bool_decide_eq_true_2 by exact Heq. simpl.
      rewrite IH, filter_cons_True by exact Heq.
      now rewrite <- app_assoc.
    + rewrite bool_decide_eq_false_2 by exact Hne.
      now rewrite IH, filter_cons_False by exact Hne.
Qed.

Lemma functionsOfCategory_filter (specs : list FunctionSpec.t) (cat : FunctionCategory) :
  functionsOfCategory specs cat
  = functionCategory.mk cat (filter (fun s => FunctionSpec.Category s = cat) specs).
Proof. unfold functionsOfCategory. now rewrite functionsOfCategory_from. Qed.

(** The outer loop keeps, in their order, the categories that have specs. *)
Lemma buildFunctionsContext_from (specs : list FunctionSpec.t)
    (cats : list FunctionCategory) (acc : list functionCategory.t) :
  fold_left
    (fun ctx cat =>
       let functions := functionsOfCategory specs cat in
       if nonEmptySlice (functionCategory.Specs functions)
       then functionsContext.mk (functionsContext.Categories ctx ++ [functions])
       else ctx)
    cats (functionsContext.mk acc)
  = functionsContext.mk
      (acc ++ filter (fun c => functionCategory.Specs c <> [])
                (map (functionsOfCategory specs) cats)).
Proof.
  revert acc. induction cats as [| cat cats IH]; intros acc; simpl.
  - now rewrite app_nil_r.
  - destruct (nonEmptySlice (functionCategory.Specs (functionsOfCategory specs cat)))
      eqn:Hne.
    + apply nonEmptySlice_true in Hne.
      rewrite IH. rewrite filter_cons_True by exact Hne.
      now rewrite <- app_assoc.
    + assert (Hnil : ~ functionCategory.Specs (functionsOfCategory specs cat) <> []).
      { intros H. apply nonEmptySlice_true in H. congruence. }
      rewrite IH. now rewrite filter_cons_False by exact Hnil.
Qed.

Lemma buildFunctionsContext_filter (specs : list FunctionSpec.t) :
  functionsContext.Categories
    (buildFunctionsContext FunctionCategoryGeneral FunctionCategoryMessage
       FunctionCategoryEnvironment FunctionCategoryDeprecated specs)
  = filter (fun c => functionCategory.Specs c <> [])
      (map (functionsOfCategory specs)
         (functionCategories FunctionCategoryGeneral FunctionCategoryMessage
            FunctionCategoryEnvironment FunctionCategoryDeprecated)).
Proof. unfold buildFunctionsContext. now rewrite buildFunctionsContext_from. Qed.

(** C4: the categories of the functions document are General, Message,
    Environment and Deprecated in this order, each with the specs of
    [FunctionDocs()] of that category in the order [FunctionDocs()] gives them,
    less the categories that have no spec; the document is the header, one
    section per such category in that order, and the footer, so that a
    category without specs leaves nothing in it. *)
Theorem functions_grouped_by_category :
  functionsContext.Categories
    (buildFunctionsContext FunctionCategoryGeneral FunctionCategoryMessage
       FunctionCategoryEnvironment FunctionCategoryDeprecated FunctionDocs)
  = filter (fun c => functionCategory.Specs c <> [])
      (map (fun cat =>
              functionCategory.mk cat
                (filter (fun s => FunctionSpec.Category s = cat) FunctionDocs))
         [ FunctionCategoryGeneral; FunctionCategoryMessage;
           FunctionCategoryEnvironment; FunctionCategoryDeprecated ])
  /\ BloblangFunctionsMarkdown FunctionCategoryGeneral FunctionCategoryMessage
       FunctionCategoryEnvironment FunctionCategoryDeprecated FunctionDocs
     = (functionsHeader
        +:+ concatStrings
              (map functionCategory_template
                 (filter (fun c => functionCategory.Specs c <> [])
                    (map (fun cat =>
                            functionCategory.mk cat
                              (filter (fun s => FunctionSpec.Category s = cat)
                                 FunctionDocs))
                       [ FunctionCategoryGeneral; FunctionCategoryMessage;
                         FunctionCategoryEnvironment; FunctionCategoryDeprecated ])))
        +:+ functionsFooter,
        None)
  /\ (map functionCategory.Name
        (functionsContext.Categories
           (buildFunctionsContext FunctionCategoryGeneral FunctionCategoryMessage
              FunctionCategoryEnvironment FunctionCategoryDeprecated FunctionDocs))
      `sublist_of`
      [ FunctionCategoryGeneral; FunctionCategoryMessage;
        FunctionCategoryEnvironment; FunctionCategoryDeprecated ])
  /\ (forall c,
        c ∈ functionsContext.Categories
              (buildFunctionsContext FunctionCategoryGeneral FunctionCategoryMessage
                 FunctionCategoryEnvironment FunctionCategoryDeprecated FunctionDocs) ->
        functionCategory.Specs c <> []
        /\ functionCategory.Specs c `sublist_of` FunctionDocs
        /\ forall s, s ∈ functionCategory.Specs c ->
                     FunctionSpec.Category s = functionCategory.Name c).
Proof.
  assert (Hctx :
    functionsContext.Categories
      (buildFunctionsContext FunctionCategoryGeneral FunctionCategoryMessage
         FunctionCategoryEnvironment FunctionCategoryDeprecated FunctionDocs)
    = filter (fun c => functionCategory.Specs c <> [])
        (map (fun cat =>
                functionCategory.mk cat
                  (filter (fun s => FunctionSpec.Category s = cat) FunctionDocs))
           [ FunctionCategoryGeneral; FunctionCategoryMessage;
             FunctionCategoryEnvironment; FunctionCategoryDeprecated ])).
  { rewrite buildFunctionsContext_filter. unfold functionCategories.
    f_equal. apply map_ext. intros cat. apply functionsOfCategory_filter. }
  split; [exact Hctx |].
  split; [unfold BloblangFunctionsMarkdown, functions_template; now rewrite Hctx |].
  rewrite Hctx. split.
  - set (group := fun cat : FunctionCategory =>
                    functionCategory.mk cat
                      (filter (fun s => FunctionSpec.Category s = cat) FunctionDocs)).
    transitivity (map functionCategory.Name
                    (map group [ FunctionCategoryGeneral; FunctionCategoryMessage;
                                 FunctionCategoryEnvironment;
                                 FunctionCategoryDeprecated ])).
    + apply fmap_sublist, sublist_filter.
    + reflexivity.
  - intros c Hc. apply list_elem_of_filter in Hc as [Hne Hc].
    apply list_elem_of_fmap in Hc as (cat & -> & _). simpl in *.
    split; [exact Hne |]. split; [apply sublist_filter |].
    intros s Hs. now apply list_elem_of_filter in Hs as [Hs _].
Qed.

(** Status plays no part in the functions document: a function of
    [FunctionDocs()] whose category is one of the four is documented. *)
Theorem function_documented_by_category (f : FunctionSpec.t) :
  f ∈ FunctionDocs ->
  FunctionSpec.Category f
  ∈ functionCategories FunctionCategoryGeneral FunctionCategoryMessage
      FunctionCategoryEnvironment FunctionCategoryDeprecated ->
  FunctionSpec.Name f
  ∈ documentedFunctionNames
      (buildFunctionsContext FunctionCategoryGeneral FunctionCategoryMessage
         FunctionCategoryEnvironment FunctionCategoryDeprecated FunctionDocs).
Proof.
  intros Hf Hcat. unfold documentedFunctionNames.
  apply list_elem_of_fmap_2, list_elem_of_In, in_concat.
  assert (Hin : f ∈ functionCategory.Specs
                      (functionsOfCategory FunctionDocs (FunctionSpec.Category f))).
  { rewrite functionsOfCategory_filter. simpl. now apply list_elem_of_filter. }
  exists (functionCategory.Specs
            (functionsOfCategory FunctionDocs (FunctionSpec.Category f))).
  split; [| now apply list_elem_of_In].
  apply in_map_iff.
  exists (functionsOfCategory FunctionDocs (FunctionSpec.Category f)).
  split; [reflexivity |].
  apply list_elem_of_In. rewrite buildFunctionsContext_filter.
  apply list_elem_of_filter. split.
  - intros Hnil. rewrite Hnil in Hin. now apply elem_of_nil in Hin.
  - now apply list_elem_of_fmap_2.
Qed.

End FunctionsFacts.

Lemma function_documented_by_category_witness :
  FunctionSpec.Name Sample.deprecatedFunction
  ∈ documentedFunctionNames
      (Sample.functionsContextOf [Sample.deprecatedFunction; Sample.hiddenFunction]).
Proof.
  apply (function_documented_by_category "General" "Message" "Environment"
           "Deprecated" [Sample.deprecatedFunction; Sample.hiddenFunction]
           Sample.deprecatedFunction).
  - apply list_elem_of_In. simpl. tauto.
  - apply list_elem_of_In. simpl. tauto.
Defined.

(** ** [methodForCat] *)

Section MethodForCatFacts.

Variable TrimSpace : string -> string.

Lemma categoryEntry_Some (s : MethodSpec.t) (cat : MethodCategory) (c : MethodCatSpec.t) :
  categoryEntry s cat = Some c ->
  c ∈ MethodSpec.Categories s /\ MethodCatSpec.Category c = cat.
Proof.
  unfold categoryEntry. intros Hfind.
  apply find_some in Hfind as [Hin Heq].
  split; [now apply list_elem_of_In | now apply String.eqb_eq].
Qed.

Lemma participates_categoryEntry (s : MethodSpec.t) (cat : MethodCategory) :
  participates s cat <-> exists c, categoryEntry s cat = Some c.
Proof.
  split.
  - intros (c & Hin & Heq). unfold categoryEntry.
    destruct (List.find _ (MethodSpec.Categories s)) as [c' |] eqn:Hfind; [now exists c' |].
    exfalso. apply list_elem_of_In in Hin.
    pose proof (find_none _ _ Hfind c Hin) as Hno. simpl in Hno.
    apply String.eqb_neq in Hno. congruence.
  - intros (c & Hfind). exists c. now apply categoryEntry_Some.
Qed.

(** The loop returns at the first entry of the category, and falls through
    when there is none. *)
Lemma methodForCatFrom_find (s : MethodSpec.t) (cat : MethodCategory)
    (categories : list MethodCatSpec.t) :
  methodForCatFrom TrimSpace s cat categories
  = match List.find (fun c => String.eqb (MethodCatSpec.Category c) cat) categories with
    | Some c => (overriddenBy TrimSpace s c, true)
    | None => (s, false)
    end.
Proof.
  induction categories as [| c rest IH]; simpl; [reflexivity |].
  destruct (String.eqb (MethodCatSpec.Category c) cat); [| exact IH].
  unfold overriddenBy, setExamples, setDescription.
  destruct s as [status name params description examples cats]; simpl.
  now destruct (nonEmpty (MethodCatSpec.Description c)),
               (nonEmptySlice (MethodCatSpec.Examples c)).
Qed.

Lemma methodForCatFrom_Name (s : MethodSpec.t) (cat : MethodCategory)
    (categories : list MethodCatSpec.t) :
  MethodSpec.Name (fst (methodForCatFrom TrimSpace s cat categories))
  = MethodSpec.Name s.
Proof.
  rewrite methodForCatFrom_find.
  now destruct (List.find _ categories).
Qed.

(** C3: when [s] participates in [cat], [methodForCat] returns true and [s]
    with, from its entry for [cat], the trimmed description when the entry
    has one and the examples when the entry has some, the own description
    and examples of [s] otherwise; when [s] does not participate it returns
    [s] and false.  The entry is the first of [s.Categories] for [cat]. *)
Theorem methodForCat_overrides (s : MethodSpec.t) (cat : MethodCategory) :
  (participates s cat ->
   exists c,
     categoryEntry s cat = Some c
     /\ c ∈ MethodSpec.Categories s
     /\ MethodCatSpec.Category c = cat
     /\ methodForCat TrimSpace s cat
        = (MethodSpec.mk (MethodSpec.Status s) (MethodSpec.Name s)
             (MethodSpec.Params s)
             (if nonEmpty (MethodCatSpec.Description c)
              then TrimSpace (MethodCatSpec.Description c)
              else MethodSpec.Description s)
             (if nonEmptySlice (MethodCatSpec.Examples c)
              then MethodCatSpec.Examples c
              else MethodSpec.Examples s)
             (MethodSpec.Categories s),
           true))
  /\ (~ participates s cat -> methodForCat TrimSpace s cat = (s, false)).
Proof.
  unfold methodForCat. rewrite methodForCatFrom_find. split.
  - intros Hp. apply participates_categoryEntry in Hp as (c & Hfind).
    exists c. destruct (categoryEntry_Some s cat c Hfind) as [Hin Heq].
    unfold categoryEntry in Hfind. rewrite Hfind.
    repeat split; assumption.
  - intros Hnp.
    destruct (List.find _ (MethodSpec.Categories s)) as [c |] eqn:Hfind; [| reflexivity].
    exfalso. apply Hnp. apply participates_categoryEntry. now exists c.
Qed.

(** C10: the spec [methodForCat] returns has the name, the status, the
    parameters and the categories of its argument; only the description and
    the examples can differ, and when it returns false the spec is its
    argument as it was.  The argument is a value of the caller's: the
    function returns a new record and writes to nothing else. *)
Theorem methodForCat_frame (s : MethodSpec.t) (cat : MethodCategory) :
  MethodSpec.Name (fst (methodForCat TrimSpace s cat)) = MethodSpec.Name s
  /\ MethodSpec.Status (fst (methodForCat TrimSpace s cat)) = MethodSpec.Status s
  /\ MethodSpec.Params (fst (methodForCat TrimSpace s cat)) = MethodSpec.Params s
  /\ MethodSpec.Categories (fst (methodForCat TrimSpace s cat))
     = MethodSpec.Categories s
  /\ (snd (methodForCat TrimSpace s cat) = false ->
      fst (methodForCat TrimSpace s cat) = s).
Proof.
  unfold methodForCat. rewrite methodForCatFrom_find.
  destruct (List.find _ (MethodSpec.Categories s)) as [c |]; simpl; repeat split.
  discriminate.
Qed.

End MethodForCatFacts.

(** The entry for strings overrides the description, trimmed, and the
    examples; the empty description of the entry for numbers overrides
    nothing; a category the method has no entry for leaves it as it is. *)
Example methodForCat_uppercase_strings :
  methodForCat Sample.TrimSpace Sample.uppercase "Strings"
  = (MethodSpec.mk "stable" "uppercase" [] "Upper case of a string."
       [Sample.upperExample] (MethodSpec.Categories Sample.uppercase), true).
Proof. vm_compute. reflexivity. Qed.

Example methodForCat_uppercase_numbers :
  methodForCat Sample.TrimSpace Sample.uppercase "Numbers" = (Sample.uppercase, true).
Proof. vm_compute. reflexivity. Qed.

Example methodForCat_uppercase_time :
  methodForCat Sample.TrimSpace Sample.uppercase "Time" = (Sample.uppercase, false).
Proof. vm_compute. reflexivity. Qed.

(** ** The methods document *)

Section MethodsFacts.

Variable TrimSpace : string -> string.
Variables MethodCategoryStrings MethodCategoryNumbers MethodCategoryRegexp
  MethodCategoryTime MethodCategoryCoercion MethodCategoryObjectAndArray
  MethodCategoryParsing MethodCategoryEncoding MethodCategoryDeprecated
  : MethodCategory.
Variable StatusHidden : Status.
Variable MethodDocs : list MethodSpec.t.

Local Abbreviation methodsContextOf :=
  (buildMethodsContext TrimSpace MethodCategoryStrings MethodCategoryNumbers
     MethodCategoryRegexp MethodCategoryTime MethodCategoryCoercion
     MethodCategoryObjectAndArray MethodCategoryParsing MethodCategoryEncoding
     MethodCategoryDeprecated StatusHidden).

Local Abbreviation methodCategoryList :=
  (methodCategories MethodCategoryStrings MethodCategoryNumbers
     MethodCategoryRegexp MethodCategoryTime MethodCategoryCoercion
     MethodCategoryObjectAndArray MethodCategoryParsing MethodCategoryEncoding
     MethodCategoryDeprecated).

Lemma methodsOfCategory_from (specs acc : list MethodSpec.t) (cat : MethodCategory) :
  fold_left
    (fun methods spec =>
       let '(spec, ok) := methodForCat TrimSpace spec cat in
       if ok
       then methodCategory.mk (methodCategory.Name methods)
              (methodCategory.Specs methods ++ [spec])
       else methods)
    specs (methodCategory.mk cat acc)
  = methodCategory.mk cat (acc ++ omap (forCategory TrimSpace cat) specs).
Proof.
  revert acc. induction specs as [| spec specs IH]; intros acc; simpl.
  - now rewrite app_nil_r.
  - unfold forCategory at 1.
    destruct (methodForCat TrimSpace spec cat) as [spec' [|]]; simpl.
    + rewrite IH. now rewrite <- app_assoc.
    + apply IH.
Qed.

(** A category section holds, in the order of [MethodDocs()], the copies of
    the specs that participate in the category. *)
Lemma methodsOfCategory_omap (specs : list MethodSpec.t) (cat : MethodCategory) :
  methodsOfCategory TrimSpace specs cat
  = methodCategory.mk cat (omap (forCategory TrimSpace cat) specs).
Proof. unfold methodsOfCategory. now rewrite methodsOfCategory_from. Qed.

Lemma buildMethodCategories_from (specs : list MethodSpec.t)
    (cats : list MethodCategory) (acc : list methodCategory.t) :
  fold_left
    (fun categories cat =>
       let methods := methodsOfCategory TrimSpace specs cat in
       if nonEmptySlice (methodCategory.Specs methods)
       then categories ++ [methods]
       else categories)
    cats acc
  = acc ++ filter (fun c => methodCategory.Specs c <> [])
             (map (methodsOfCategory TrimSpace specs) cats).
Proof.
  revert acc. induction cats as [| cat cats IH]; intros acc; simpl.
  - now rewrite app_nil_r.
  - destruct (nonEmptySlice (methodCategory.Specs (methodsOfCategory TrimSpace specs cat)))
      eqn:Hne.
    + apply nonEmptySlice_true in Hne.
      rewrite IH. rewrite filter_cons_True by exact Hne.
      now rewrite <- app_assoc.
    + assert (Hnil : ~ methodCategory.Specs (methodsOfCategory TrimSpace specs cat) <> []).
      { intros H. apply nonEmptySlice_true in H. congruence. }
      rewrite IH. now rewrite filter_cons_False by exact Hnil.
Qed.

Lemma buildMethodCategories_filter (specs : list MethodSpec.t) :
  methodsContext.Categories (methodsContextOf specs)
  = filter (fun c => methodCategory.Specs c <> [])
      (map (methodsOfCategory TrimSpace specs) methodCategoryList).
Proof.
  unfold buildMethodsContext. cbn [methodsContext.Categories].
  unfold buildMethodCategories. now rewrite buildMethodCategories_from.
Qed.

Lemma general_test (s : MethodSpec.t) :
  Nat.eqb (length (MethodSpec.Categories s)) 0
  && negb (String.eqb (MethodSpec.Status s) StatusHidden)
  = bool_decide (MethodSpec.Categories s = [] /\ MethodSpec.Status s <> StatusHidden).
Proof.
  destruct (decide (MethodSpec.Categories s = [] /\ MethodSpec.Status s <> StatusHidden))
    as [[Hcats Hstatus] | Hno].
  - rewrite bool_decide_eq_true_2 by (split; assumption).
    rewrite Hcats. apply String.eqb_neq in Hstatus. now rewrite Hstatus.
  - rewrite bool_decide_eq_false_2 by exact Hno.
    destruct (MethodSpec.Categories s) as [| c cats]; [| reflexivity].
    destruct (String.eqb_spec (MethodSpec.Status s) StatusHidden) as [Heq | Hne];
      [reflexivity |].
    exfalso. apply Hno. split; [reflexivity | exact Hne].
Qed.

Lemma buildGeneral_from (specs acc : list MethodSpec.t) :
  fold_left
    (fun general spec =>
       if Nat.eqb (length (MethodSpec.Categories spec)) 0
          && negb (String.eqb (MethodSpec.Status spec) StatusHidden)
       then general ++ [setDescription spec (TrimSpace (MethodSpec.Description spec))]
       else general)
    specs acc
  = acc ++ map (fun s => setDescription s (TrimSpace (MethodSpec.Description s)))
             (filter (fun s => MethodSpec.Categories s = []
                               /\ MethodSpec.Status s <> StatusHidden) specs).
Proof.
  revert acc. induction specs as [| spec specs IH]; intros acc; simpl.
  - now rewrite app_nil_r.
  - rewrite general_test.
    destruct (decide (MethodSpec.Categories spec = []
                      /\ MethodSpec.Status spec <> StatusHidden)) as [Hyes | Hno].
    + rewrite bool_decide_eq_true_2 by exact Hyes.
      rewrite IH, filter_cons_True by exact Hyes. simpl.
      now rewrite <- app_assoc.
    + rewrite bool_decide_eq_false_2 by exact Hno.
      now rewrite IH, filter_cons_False by exact Hno.
Qed.

(** The General section holds, in the order of [MethodDocs()], the specs
    without categories that are not hidden, their descriptions trimmed. *)
Lemma buildGeneral_filter (specs : list MethodSpec.t) :
  methodsContext.General (methodsContextOf specs)
  = map (fun s => setDescription s (TrimSpace (MethodSpec.Description s)))
      (filter (fun s => MethodSpec.Categories s = []
                        /\ MethodSpec.Status s <> StatusHidden) specs).
Proof.
  unfold buildMethodsContext. cbn [methodsContext.General].
  unfold buildGeneral. now rewrite buildGeneral_from.
Qed.

(** A spec without categories participates in none. *)
Lemma forCategory_uncategorised (s : MethodSpec.t) (cat : MethodCategory) :
  MethodSpec.Categories s = [] -> forCategory TrimSpace cat s = None.
Proof. intros Hcats. unfold forCategory, methodForCat. now rewrite Hcats. Qed.

(** What participates keeps its name. *)
Lemma forCategory_Name (s d : MethodSpec.t) (cat : MethodCategory) :
  forCategory TrimSpace cat s = Some d -> MethodSpec.Name d = MethodSpec.Name s.
Proof.
  unfold forCategory. pose proof (methodForCatFrom_Name TrimSpace s cat (MethodSpec.Categories s)) as Hname.
  fold (methodForCat TrimSpace s cat) in Hname.
  destruct (methodForCat TrimSpace s cat) as [spec [|]]; [| discriminate].
  intros [= <-]. exact Hname.
Qed.

Lemma omap_filter_skip {A B : Type} (f : A -> option B) (P : A -> Prop)
    `{!forall x, Decision (P x)} (l : list A) :
  (forall x, ~ P x -> f x = None) -> omap f (filter P l) = omap f l.
Proof.
  intros Hskip. induction l as [| x l IH]; [reflexivity |].
  destruct (decide (P x)) as [Hyes | Hno].
  - rewrite filter_cons_True by exact Hyes. csimpl. now rewrite IH.
  - rewrite filter_cons_False by exact Hno. csimpl. now rewrite IH, (Hskip x Hno).
Qed.

Lemma filter_filter_implied {A : Type} (P Q : A -> Prop)
    `{!forall x, Decision (P x)} `{!forall x, Decision (Q x)} (l : list A) :
  (forall x, Q x -> P x) -> filter Q (filter P l) = filter Q l.
Proof.
  intros Himp. induction l as [| x l IH]; [reflexivity |].
  destruct (decide (P x)) as [Hp | Hnp].
  - rewrite (filter_cons_True P) by exact Hp.
    destruct (decide (Q x)) as [Hq | Hnq].
    + rewrite !(filter_cons_True Q) by exact Hq. now rewrite IH.
    + rewrite !(filter_cons_False Q) by exact Hnq. exact IH.
  - rewrite (filter_cons_False P) by exact Hnp.
    rewrite (filter_cons_False Q) by (intros Hq; apply Hnp, Himp, Hq).
    exact IH.
Qed.

(** The context built from a registry is the one built from the registry
    without its hidden methods that have no categories. *)
Lemma methodsContext_without_hidden (specs : list MethodSpec.t) :
  methodsContextOf
    (filter (fun s => ~ (MethodSpec.Categories s = []
                         /\ MethodSpec.Status s = StatusHidden)) specs)
  = methodsContextOf specs.
Proof.
  set (visible := filter _ specs).
  assert (Hcat : forall cat,
             methodsOfCategory TrimSpace visible cat
             = methodsOfCategory TrimSpace specs cat).
  { intros cat. rewrite !methodsOfCategory_omap. f_equal.
    apply omap_filter_skip. intros s Hs.
    apply forCategory_uncategorised.
    destruct (MethodSpec.Categories s); [reflexivity |].
    exfalso. apply Hs. intros [H _]. discriminate. }
  unfold buildMethodsContext. f_equal.
  - unfold buildMethodCategories. rewrite !buildMethodCategories_from.
    f_equal. f_equal. apply map_ext. exact Hcat.
  - unfold buildGeneral. rewrite !buildGeneral_from. f_equal. f_equal.
    apply filter_filter_implied. intros s [Hcats Hstatus] [_ Hhidden]. contradiction.
Qed.

(** The specs a context documents come from the registry: a general one
    from a spec without categories that is not hidden, one of a category
    from a spec that participates in it; each under its own name. *)
Lemma documented_origin (specs : list MethodSpec.t) (name : string) :
  name ∈ documentedMethodNames (methodsContextOf specs) ->
  exists s, s ∈ specs /\ MethodSpec.Name s = name
            /\ ~ hiddenUncategorised StatusHidden s.
Proof.
  unfold documentedMethodNames. intros Hname.
  apply list_elem_of_fmap in Hname as (d & -> & Hd).
  apply elem_of_app in Hd as [Hgen | Hcat].
  - rewrite buildGeneral_filter in Hgen.
    apply list_elem_of_fmap in Hgen as (s & -> & Hs).
    apply list_elem_of_filter in Hs as [[Hcats Hstatus] Hs].
    exists s. split; [exact Hs |]. split; [reflexivity |].
    intros [_ Hhidden]. contradiction.
  - apply list_elem_of_In, in_concat in Hcat as (l & Hl & Hd).
    apply in_map_iff in Hl as (c & <- & Hc).
    apply list_elem_of_In in Hc. rewrite buildMethodCategories_filter in Hc.
    apply list_elem_of_filter in Hc as [_ Hc].
    apply list_elem_of_fmap in Hc as (cat & -> & _).
    rewrite methodsOfCategory_omap in Hd. simpl in Hd.
    apply list_elem_of_In, list_elem_of_omap in Hd as (s & Hs & Hfor).
    exists s. split; [exact Hs |]. split; [now apply forCategory_Name in Hfor |].
    intros [Hcats _]. rewrite (forCategory_uncategorised s cat Hcats) in Hfor.
    discriminate.
Qed.

(** C1, as amended: a hidden method that has no categories is left out of
    the methods document.  Its name, which no other spec of the registry
    bears, is not among the documented ones, and the document is the one of
    the registry without the hidden methods that have no categories. *)
Theorem hidden_uncategorised_method_undocumented (s : MethodSpec.t) :
  s ∈ MethodDocs ->
  hiddenUncategorised StatusHidden s ->
  (forall s', s' ∈ MethodDocs -> MethodSpec.Name s' = MethodSpec.Name s -> s' = s) ->
  (MethodSpec.Name s ∉ documentedMethodNames (methodsContextOf MethodDocs))
  /\ BloblangMethodsMarkdown TrimSpace MethodCategoryStrings MethodCategoryNumbers
       MethodCategoryRegexp MethodCategoryTime MethodCategoryCoercion
       MethodCategoryObjectAndArray MethodCategoryParsing MethodCategoryEncoding
       MethodCategoryDeprecated StatusHidden MethodDocs
     = BloblangMethodsMarkdown TrimSpace MethodCategoryStrings MethodCategoryNumbers
         MethodCategoryRegexp MethodCategoryTime MethodCategoryCoercion
         MethodCategoryObjectAndArray MethodCategoryParsing MethodCategoryEncoding
         MethodCategoryDeprecated StatusHidden
         (filter (fun s => ~ (MethodSpec.Categories s = []
                              /\ MethodSpec.Status s = StatusHidden)) MethodDocs).
Proof.
  intros Hin Hhidden Hunique. split.
  - intros Hname. apply documented_origin in Hname as (s' & Hs' & Hsame & Hvisible).
    apply Hvisible. now rewrite (Hunique s' Hs' Hsame).
  - unfold BloblangMethodsMarkdown. now rewrite methodsContext_without_hidden.
Qed.


End MethodsFacts.


(** A registry of three methods: the hidden one is not documented, the
    deprecated one is, under General, its description trimmed. *)
Example methods_documented_names :
  documentedMethodNames
    (Sample.methodsContextOf [Sample.uppercase; Sample.hiddenMethod; Sample.oldMethod])
  = ["old"; "uppercase"; "uppercase"].
Proof. vm_compute. reflexivity. Qed.

Example methods_general_section :
  methodsContext.General
    (Sample.methodsContextOf [Sample.uppercase; Sample.hiddenMethod; Sample.oldMethod])
  = [MethodSpec.mk Sample.StatusDeprecated "old" [] "Use new instead." [] []].
Proof. vm_compute. reflexivity. Qed.

Lemma hidden_uncategorised_method_undocumented_witness :
  MethodSpec.Name Sample.hiddenMethod
  ∉ documentedMethodNames
      (Sample.methodsContextOf [Sample.uppercase; Sample.hiddenMethod; Sample.oldMethod]).
Proof.
  refine (proj1 (hidden_uncategorised_method_undocumented Sample.TrimSpace
                   "Strings" "Numbers" "Regexp" "Time" "Coercion" "ObjectAndArray"
                   "Parsing" "Encoding" "Deprecated" Sample.StatusHidden
                   [Sample.uppercase; Sample.hiddenMethod; Sample.oldMethod]
                   Sample.hiddenMethod _ _ _)).
  - apply list_elem_of_In. simpl. tauto.
  - split; reflexivity.
  - intros s' Hs' Hname. apply list_elem_of_In in Hs'. simpl in Hs'.
    destruct Hs' as [<- | [<- | [<- | []]]]; (reflexivity || discriminate Hname).
Defined.

(** C1 as stated fails: a deprecated method registered without categories is
    documented, under General. *)
Lemma deprecated_method_documented :
  ~ (forall s,
        s ∈ [Sample.oldMethod] ->
        MethodSpec.Status s = Sample.StatusHidden
        \/ MethodSpec.Status s = Sample.StatusDeprecated ->
        MethodSpec.Name s
        ∉ documentedMethodNames (Sample.methodsContextOf [Sample.oldMethod])).
Proof.
  intros Hclaim.
  apply (Hclaim Sample.oldMethod).
  - apply list_elem_of_In. simpl. tauto.
  - right. reflexivity.
  - apply list_elem_of_In. vm_compute. tauto.
Qed.

(** So is a hidden method that has a category, under that category, and so
    are a hidden and a deprecated function, each under its category. *)
Example hidden_categorised_method_documented :
  documentedMethodNames (Sample.methodsContextOf [Sample.hiddenStringsMethod])
  = ["secret_upper"].
Proof. vm_compute. reflexivity. Qed.

Example hidden_and_deprecated_functions_documented :
  documentedFunctionNames
    (Sample.functionsContextOf [Sample.deprecatedFunction; Sample.hiddenFunction])
  = ["secret_fn"; "old_fn"].
Proof. vm_compute. reflexivity. Qed.

(** The document of these two functions: a General section, then a
    Deprecated one, between the header and the footer. *)
Example functions_document :
  Sample.functionsMarkdown [Sample.deprecatedFunction; Sample.hiddenFunction]
  = (functionsHeader
     +:+ unlines [ "## General"; ""; "### `secret_fn`"; ""; "Not for the docs."; "" ]
     +:+ unlines [ "## Deprecated"; ""; "### `old_fn`"; ""; "Gone soon."; "" ]
     +:+ functionsFooter,
     None).
Proof. vm_compute. reflexivity. Qed.

(** ** The redis_streams writer *)

Section RedisFacts.

Variable Part : Type.
Variable AsBytes : Part -> list Byte.byte.
Variable Expression : Type.
Variable NewField : string -> result Expression.
Variable fieldString : Expression -> nat -> list Part -> string.
Variables ExcludeFilterConfig ExcludeFilter : Type.
Variable Filter : ExcludeFilterConfig -> result ExcludeFilter.
Variable Iter : ExcludeFilter -> Part -> list (string * string).
Variable ClientConfig : Type.
Variable clientFromConfig : ClientConfig -> result UniversalClient.t.
Variable ErrNotConnected : error.

Local Abbreviation writer :=
  (redisStreamsWriter Expression ExcludeFilterConfig ExcludeFilter ClientConfig).

(** C5: when the stream field of a configuration does not parse as an
    interpolation expression, [newRedisStreamsWriter] returns no writer and
    the error "failed to parse expression: " followed by the parser's. *)
Theorem newRedisStreamsWriter_parse_error
    (conf : RedisStreamsConfig ExcludeFilterConfig ClientConfig) (err : error) :
  NewField (Stream conf) = Err err ->
  newRedisStreamsWriter NewField Filter clientFromConfig conf
  = Err (ErrorString ("failed to parse expression: " +:+ errorText err))
  /\ forall r : writer,
       newRedisStreamsWriter NewField Filter clientFromConfig conf <> Ok r.
Proof.
  intros Hparse. unfold newRedisStreamsWriter. rewrite Hparse.
  split; [reflexivity | discriminate].
Qed.

(** A writer is only ever returned with its stream field compiled, and not
    yet connected. *)
Theorem newRedisStreamsWriter_compiled
    (conf : RedisStreamsConfig ExcludeFilterConfig ClientConfig) (r : writer) :
  newRedisStreamsWriter NewField Filter clientFromConfig conf = Ok r ->
  NewField (Stream conf) = Ok (stream r) /\ client r = None.
Proof.
  unfold newRedisStreamsWriter.
  destruct (NewField (Stream conf)) as [e |]; [| discriminate].
  destruct (Filter (Metadata conf)) as [f |]; [| discriminate].
  destruct (clientFromConfig (Config conf)) as [c |]; [| discriminate].
  intros [= <-]. split; reflexivity.
Qed.

(** Inserting the metadata pairs one after the other: a key of the result
    was there before or is a pair's, and every pair's key is there. *)
Lemma fold_insert_lookup (pairs : list (string * string))
    (m : gmap string redisValue) (k : string) (v : redisValue) :
  fold_left (fun values kv => <[fst kv := ValString (snd kv)]> values) pairs m !! k
  = Some v ->
  m !! k = Some v \/ exists s, v = ValString s /\ (k, s) ∈ pairs.
Proof.
  revert m. induction pairs as [| [k' s'] pairs IH]; intros m; simpl.
  - now left.
  - intros Hlookup. destruct (IH _ Hlookup) as [Hm | (s & -> & Hin)].
    + destruct (decide (k' = k)) as [-> | Hne].
      * rewrite lookup_insert_eq in Hm. injection Hm as <-.
        right. exists s'. split; [reflexivity | left].
      * rewrite lookup_insert_ne in Hm by exact Hne. now left.
    + right. exists s. split; [reflexivity | now right].
Qed.

Lemma fold_insert_is_Some (pairs : list (string * string))
    (m : gmap string redisValue) (k : string) :
  is_Some (m !! k) \/ (exists s, (k, s) ∈ pairs) ->
  is_Some (fold_left (fun values kv => <[fst kv := ValString (snd kv)]> values)
             pairs m !! k).
Proof.
  revert m. induction pairs as [| [k' s'] pairs IH]; intros m; simpl.
  - intros [Hm | (s & Hin)]; [exact Hm |]. now apply elem_of_nil in Hin.
  - intros [Hm | (s & Hin)]; apply IH.
    + left. destruct (decide (k' = k)) as [-> | Hne].
      * rewrite lookup_insert_eq. eauto.
      * now rewrite lookup_insert_ne.
    + apply elem_of_cons in Hin as [[= -> ->] | Hin].
      * left. rewrite lookup_insert_eq. eauto.
      * right. eauto.
Qed.

(** C9: in the map of an entry the body key holds the body of the message,
    whatever the metadata holds, a pair under the body key included; the
    other keys hold metadata values, and every metadata key is a key of the
    map. *)
Theorem partToMap_body_takes_precedence (r : writer) (p : Part) :
  partToMap AsBytes Iter r p !! BodyKey (conf r) = Some (ValBytes (AsBytes p))
  /\ (forall v, (BodyKey (conf r), v) ∈ Iter (metaFilter r) p ->
                partToMap AsBytes Iter r p !! BodyKey (conf r) <> Some (ValString v))
  /\ (forall k v, k <> BodyKey (conf r) ->
                  partToMap AsBytes Iter r p !! k = Some v ->
                  exists s, v = ValString s /\ (k, s) ∈ Iter (metaFilter r) p)
  /\ (forall k s, (k, s) ∈ Iter (metaFilter r) p ->
                  is_Some (partToMap AsBytes Iter r p !! k)).
Proof.
  unfold partToMap. split; [apply lookup_insert_eq |].
  split; [intros v _; rewrite lookup_insert_eq; discriminate |].
  split.
  - intros k v Hne Hlookup. rewrite lookup_insert_ne in Hlookup by congruence.
    apply fold_insert_lookup in Hlookup as [Hempty | Hmeta]; [| exact Hmeta].
    now rewrite lookup_empty in Hempty.
  - intros k s Hin. destruct (decide (BodyKey (conf r) = k)) as [<- | Hne].
    + rewrite lookup_insert_eq. eauto.
    + rewrite lookup_insert_ne by exact Hne.
      apply fold_insert_is_Some. right. eauto.
Qed.

(** The pipeline holds one XADD per part, in the order of the batch, each
    built at the index of its part. *)
Lemma queueBatch_from (r : writer) (msg parts : list Part) (i : nat)
    (pipe : list XAddArgs.t) :
  snd (fold_left
         (fun st p =>
            let '(i, pipe) := st in
            (S i, pipe ++ [xaddArgs AsBytes fieldString Iter r msg i p]))
         parts (i, pipe))
  = pipe ++ imap (fun j p => xaddArgs AsBytes fieldString Iter r msg (i + j) p) parts.
Proof.
  revert i pipe. induction parts as [| p parts IH]; intros i pipe; simpl.
  - now rewrite app_nil_r.
  - rewrite IH, <- app_assoc. simpl. rewrite Nat.add_0_r.
    do 2 f_equal. apply imap_ext. intros j q _. simpl. f_equal. lia.
Qed.

Lemma queueBatch_imap (r : writer) (msg : list Part) :
  queueBatch AsBytes fieldString Iter r msg
  = imap (fun i p => xaddArgs AsBytes fieldString Iter r msg i p) msg.
Proof. unfold queueBatch. now rewrite queueBatch_from. Qed.

(** The commands a connected writer hands to its client for a batch. *)
Lemma WriteBatch_commands (r : writer) (c : UniversalClient.t) (msg : list Part) :
  client r = Some c ->
  commandsOf (snd (fst (WriteBatch AsBytes fieldString Iter ErrNotConnected r msg)))
  = imap (fun i p => xaddArgs AsBytes fieldString Iter r msg i p) msg.
Proof.
  intros Hclient. unfold WriteBatch, lostConnection, disconnect. rewrite Hclient.
  destruct msg as [| p [| q rest]].
  - rewrite queueBatch_imap.
    destruct (UniversalClient.PipelineExec c _) as [cmders [err |]]; reflexivity.
  - destruct (UniversalClient.XAdd c _) as [err |]; reflexivity.
  - rewrite queueBatch_imap.
    destruct (UniversalClient.PipelineExec c _) as [cmders [err |]]; simpl;
      now rewrite app_nil_r.
Qed.

(** C7: for every batch a connected writer hands its client one XADD per
    message, in the order of the batch; the one of the message at index [i]
    is sent to the stream the compiled field evaluates to at index [i] of
    the batch, [stream.String(i, batch)], with the values of that message. *)
Theorem WriteBatch_stream_per_message (r : writer) (c : UniversalClient.t)
    (msg : list Part) :
  client r = Some c ->
  length (commandsOf
            (snd (fst (WriteBatch AsBytes fieldString Iter ErrNotConnected r msg))))
  = length msg
  /\ forall i p,
       msg !! i = Some p ->
       exists args,
         commandsOf
           (snd (fst (WriteBatch AsBytes fieldString Iter ErrNotConnected r msg))) !! i
         = Some args
         /\ XAddArgs.Stream args = fieldString (stream r) i msg
         /\ XAddArgs.Values args = partToMap AsBytes Iter r p.
Proof.
  intros Hclient. rewrite (WriteBatch_commands r c msg Hclient). split.
  - apply length_imap.
  - intros i p Hp. eexists. rewrite list_lookup_imap, Hp. simpl.
    split; [reflexivity |]. split; reflexivity.
Qed.

(** A writer that is not connected sends nothing and says so. *)
Theorem WriteBatch_not_connected (r : writer) (msg : list Part) :
  client r = None ->
  WriteBatch AsBytes fieldString Iter ErrNotConnected r msg
  = (r, [], Some ErrNotConnected).
Proof. intros Hclient. unfold WriteBatch. now rewrite Hclient. Qed.

(** When the client fails, on the XADD of a single message or on the [Exec]
    of a pipeline, the writer closes it, logs the error, reports that it is
    not connected, and is left without client. *)
Theorem WriteBatch_lost_connection (r : writer) (c : UniversalClient.t)
    (msg : list Part) (err : error) :
  client r = Some c ->
  (exists p, msg = [p]
             /\ UniversalClient.XAdd c (xaddArgs AsBytes fieldString Iter r msg 0 p)
                = Some err)
  \/ (length msg <> 1%nat
      /\ snd (UniversalClient.PipelineExec c
                (queueBatch AsBytes fieldString Iter r msg)) = Some err) ->
  exists sent,
    WriteBatch AsBytes fieldString Iter ErrNotConnected r msg
    = (setClient r None,
       [sent; Closed; LogErrorf ("Error from redis: " +:+ errorText err +:+ nl)],
       Some ErrNotConnected).
Proof.
  intros Hclient Hfail. unfold WriteBatch, lostConnection, disconnect.
  rewrite Hclient.
  destruct Hfail as [(p & -> & Hxadd) | [Hlen Hexec]].
  - rewrite Hxadd. eexists. reflexivity.
  - destruct msg as [| p [| q rest]]; [| simpl in Hlen; congruence |];
      destruct (UniversalClient.PipelineExec c _) as [cmders res];
      simpl in Hexec; subst res; eexists; reflexivity.
Qed.

End RedisFacts.

(** A stream field with a question mark in it is refused when the writer is
    built. *)
Lemma newRedisStreamsWriter_parse_error_witness :
  newRedisStreamsWriter Sample.fieldNew Sample.Filter Sample.clientFromConfig
    (Sample.streamsConfig "events-${! ? }")
  = Err (ErrorString
           ("failed to parse expression: "
            +:+ errorText (ParserErr (parser.mkError 11 "unexpected ?"))))
  /\ forall r,
       newRedisStreamsWriter Sample.fieldNew Sample.Filter Sample.clientFromConfig
         (Sample.streamsConfig "events-${! ? }") <> Ok r.
Proof.
  apply (newRedisStreamsWriter_parse_error string Sample.fieldNew
           (list string) (list string) Sample.Filter unit Sample.clientFromConfig
           (Sample.streamsConfig "events-${! ? }")
           (ParserErr (parser.mkError 11 "unexpected ?"))).
  vm_compute. reflexivity.
Defined.

(** A batch of two messages of different tenants goes to two streams; the
    body of the first replaces the metadata value under the body key, and
    the metadata the filter leaves out is not sent. *)
Example WriteBatch_two_streams :
  WriteBatch Sample.body Sample.fieldString Sample.Iter Sample.ErrNotConnected
    Sample.connectedWriter [Sample.partA; Sample.partB]
  = (Sample.connectedWriter,
     [SentPipeline
        [ XAddArgs.mk "*" "events-a" 0
            (<["body" := ValBytes Sample.hello]> {["tenant" := ValString "a"]});
          XAddArgs.mk "*" "events-b" 0
            (<["body" := ValBytes []]> {["tenant" := ValString "b"]}) ]],
     None).
Proof. vm_compute. reflexivity. Qed.

Example WriteBatch_single :
  WriteBatch Sample.body Sample.fieldString Sample.Iter Sample.ErrNotConnected
    Sample.connectedWriter [Sample.partB]
  = (Sample.connectedWriter,
     [SentXAdd (XAddArgs.mk "*" "events-b" 0
                  (<["body" := ValBytes []]> {["tenant" := ValString "b"]}))],
     None).
Proof. vm_compute. reflexivity. Qed.

Lemma WriteBatch_stream_per_message_witness :
  length (commandsOf
            (snd (fst (WriteBatch Sample.body Sample.fieldString Sample.Iter
                         Sample.ErrNotConnected Sample.connectedWriter
                         [Sample.partA; Sample.partB]))))
  = length [Sample.partA; Sample.partB]
  /\ forall i p,
       [Sample.partA; Sample.partB] !! i = Some p ->
       exists args,
         commandsOf
           (snd (fst (WriteBatch Sample.body Sample.fieldString Sample.Iter
                        Sample.ErrNotConnected Sample.connectedWriter
                        [Sample.partA; Sample.partB]))) !! i
         = Some args
         /\ XAddArgs.Stream args
            = Sample.fieldString (stream Sample.connectedWriter) i
                [Sample.partA; Sample.partB]
         /\ XAddArgs.Values args
            = partToMap Sample.body Sample.Iter Sample.connectedWriter p.
Proof.
  apply (WriteBatch_stream_per_message Sample.Part Sample.body string
           Sample.fieldString (list string) (list string) Sample.Iter unit
           Sample.ErrNotConnected Sample.connectedWriter Sample.acceptingClient
           [Sample.partA; Sample.partB]).
  reflexivity.
Defined.

Lemma newRedisStreamsWriter_compiled_witness :
  Sample.fieldNew (Stream (Sample.streamsConfig "events-"))
  = Ok (stream (mkWriter (Sample.streamsConfig "events-") "events-" ["kafka_"] None))
  /\ client (mkWriter (Sample.streamsConfig "events-") "events-" ["kafka_"] None)
     = None.
Proof.
  apply (newRedisStreamsWriter_compiled string Sample.fieldNew
           (list string) (list string) Sample.Filter unit Sample.clientFromConfig
           (Sample.streamsConfig "events-")
           (mkWriter (Sample.streamsConfig "events-") "events-" ["kafka_"] None)).
  vm_compute. reflexivity.
Defined.

Lemma WriteBatch_not_connected_witness :
  WriteBatch Sample.body Sample.fieldString Sample.Iter Sample.ErrNotConnected
    (mkWriter (Sample.streamsConfig "events-") "events-" ["kafka_"] None)
    [Sample.partA]
  = (mkWriter (Sample.streamsConfig "events-") "events-" ["kafka_"] None, [],
     Some Sample.ErrNotConnected).
Proof.
  apply (WriteBatch_not_connected Sample.Part Sample.body string Sample.fieldString
           (list string) (list string) Sample.Iter unit Sample.ErrNotConnected).
  reflexivity.
Defined.

Lemma WriteBatch_lost_connection_witness :
  exists sent,
    WriteBatch Sample.body Sample.fieldString Sample.Iter Sample.ErrNotConnected
      (mkWriter (Sample.streamsConfig "events-") "events-" ["kafka_"]
         (Some Sample.refusingClient))
      [Sample.partA; Sample.partB]
    = (mkWriter (Sample.streamsConfig "events-") "events-" ["kafka_"] None,
       [sent; Closed;
        LogErrorf ("Error from redis: " +:+ errorText Sample.connectionReset +:+ nl)],
       Some Sample.ErrNotConnected).
Proof.
  apply (WriteBatch_lost_connection Sample.Part Sample.body string Sample.fieldString
           (list string) (list string) Sample.Iter unit Sample.ErrNotConnected
           (mkWriter (Sample.streamsConfig "events-") "events-" ["kafka_"]
              (Some Sample.refusingClient))
           Sample.refusingClient [Sample.partA; Sample.partB] Sample.connectionReset).
  - reflexivity.
  - right. split; [simpl; lia | reflexivity].
Defined.

(** ** More on the two documents *)

Lemma filter_none {A : Type} (P : A -> Prop) `{!forall x, Decision (P x)} (l : list A) :
  (forall x, x ∈ l -> ~ P x) -> filter P l = [].
Proof.
  intros Hnone. induction l as [| x l IH]; [reflexivity |].
  rewrite filter_cons_False by (apply Hnone; left).
  apply IH. intros y Hy. apply Hnone. now right.
Qed.

Lemma omap_none {A B : Type} (f : A -> option B) (l : list A) :
  (forall x, x ∈ l -> f x = None) -> omap f l = [].
Proof.
  intros Hnone. induction l as [| x l IH]; [reflexivity |].
  csimpl. rewrite (Hnone x) by left.
  apply IH. intros y Hy. apply Hnone. now right.
Qed.

Section FunctionsMoreFacts.

Variables FunctionCategoryGeneral FunctionCategoryMessage
  FunctionCategoryEnvironment FunctionCategoryDeprecated : FunctionCategory.
Variable FunctionDocs : list FunctionSpec.t.

Local Abbreviation functionsContextOf :=
  (buildFunctionsContext FunctionCategoryGeneral FunctionCategoryMessage
     FunctionCategoryEnvironment FunctionCategoryDeprecated).

Local Abbreviation functionCategoryList :=
  (functionCategories FunctionCategoryGeneral FunctionCategoryMessage
     FunctionCategoryEnvironment FunctionCategoryDeprecated).

(** A documented function is a function of [FunctionDocs()] whose category
    is one of the four: a function of any other category, the empty one
    included, is left out of the document. *)
Theorem documented_function_origin (name : string) :
  name ∈ documentedFunctionNames (functionsContextOf FunctionDocs) ->
  exists f, f ∈ FunctionDocs
            /\ FunctionSpec.Name f = name
            /\ FunctionSpec.Category f ∈ functionCategoryList.
Proof.
  unfold documentedFunctionNames. intros Hname.
  apply list_elem_of_fmap in Hname as (f & -> & Hf).
  apply list_elem_of_In, in_concat in Hf as (l & Hl & Hf).
  apply in_map_iff in Hl as (c & <- & Hc).
  apply list_elem_of_In in Hc. rewrite buildFunctionsContext_filter in Hc.
  apply list_elem_of_filter in Hc as [_ Hc].
  apply list_elem_of_fmap in Hc as (cat & -> & Hcat).
  rewrite functionsOfCategory_filter in Hf. simpl in Hf.
  apply list_elem_of_In, list_elem_of_filter in Hf as [Heq Hf].
  exists f. split; [exact Hf |]. split; [reflexivity |]. now rewrite Heq.
Qed.

(** When no function of [FunctionDocs()] has one of the four categories, an
    empty registry included, the document is the header followed by the
    footer: no category heading is written. *)
Theorem functions_document_without_sections :
  (forall f, f ∈ FunctionDocs -> FunctionSpec.Category f ∉ functionCategoryList) ->
  BloblangFunctionsMarkdown FunctionCategoryGeneral FunctionCategoryMessage
    FunctionCategoryEnvironment FunctionCategoryDeprecated FunctionDocs
  = (functionsHeader +:+ functionsFooter, None).
Proof.
  intros Hnone. unfold BloblangFunctionsMarkdown, functions_template.
  rewrite buildFunctionsContext_filter.
  rewrite filter_none; [reflexivity |].
  intros c Hc Hspecs. apply list_elem_of_fmap in Hc as (cat & -> & Hcat).
  apply Hspecs. rewrite functionsOfCategory_filter. simpl.
  apply filter_none. intros f Hf Heq. apply (Hnone f Hf). now rewrite Heq.
Qed.

End FunctionsMoreFacts.

Lemma documented_function_origin_witness :
  exists f, f ∈ [Sample.deprecatedFunction; SampleMore.uncategorisedFunction]
            /\ FunctionSpec.Name f = "old_fn"
            /\ FunctionSpec.Category f
               ∈ functionCategories "General" "Message" "Environment" "Deprecated".
Proof.
  apply (documented_function_origin "General" "Message" "Environment" "Deprecated"
           [Sample.deprecatedFunction; SampleMore.uncategorisedFunction] "old_fn").
  apply list_elem_of_In. vm_compute. tauto.
Defined.

Lemma functions_document_without_sections_witness :
  BloblangFunctionsMarkdown "General" "Message" "Environment" "Deprecated"
    [SampleMore.uncategorisedFunction]
  = (functionsHeader +:+ functionsFooter, None).
Proof.
  apply (functions_document_without_sections "General" "Message" "Environment"
           "Deprecated" [SampleMore.uncategorisedFunction]).
  intros f Hf Hcat.
  apply list_elem_of_In in Hf. simpl in Hf. destruct Hf as [<- | []].
  apply list_elem_of_In in Hcat. simpl in Hcat.
  destruct Hcat as [H | [H | [H | [H | []]]]]; discriminate H.
Defined.

Section MethodsMoreFacts.

Variable TrimSpace : string -> string.
Variables MethodCategoryStrings MethodCategoryNumbers MethodCategoryRegexp
  MethodCategoryTime MethodCategoryCoercion MethodCategoryObjectAndArray
  MethodCategoryParsing MethodCategoryEncoding MethodCategoryDeprecated
  : MethodCategory.
Variable StatusHidden : Status.
Variable MethodDocs : list MethodSpec.t.

Local Abbreviation methodsContextOf :=
  (buildMethodsContext TrimSpace MethodCategoryStrings MethodCategoryNumbers
     MethodCategoryRegexp MethodCategoryTime MethodCategoryCoercion
     MethodCategoryObjectAndArray MethodCategoryParsing MethodCategoryEncoding
     MethodCategoryDeprecated StatusHidden).

Local Abbreviation methodCategoryList :=
  (methodCategories MethodCategoryStrings MethodCategoryNumbers
     MethodCategoryRegexp MethodCategoryTime MethodCategoryCoercion
     MethodCategoryObjectAndArray MethodCategoryParsing MethodCategoryEncoding
     MethodCategoryDeprecated).

(** What the inner loop keeps of a spec is the spec overridden by its entry
    for the category. *)
Lemma forCategory_Some (s d : MethodSpec.t) (cat : MethodCategory) :
  forCategory TrimSpace cat s = Some d ->
  exists c, categoryEntry s cat = Some c /\ d = overriddenBy TrimSpace s c.
Proof.
  unfold forCategory, methodForCat, categoryEntry. rewrite methodForCatFrom_find.
  destruct (List.find _ (MethodSpec.Categories s)) as [c |]; [| discriminate].
  intros [= <-]. now exists c.
Qed.

Lemma forCategory_None (s : MethodSpec.t) (cat : MethodCategory) :
  ~ participates s cat -> forCategory TrimSpace cat s = None.
Proof.
  intros Hnp. unfold forCategory, methodForCat. rewrite methodForCatFrom_find.
  destruct (List.find _ (MethodSpec.Categories s)) as [c |] eqn:Hfind; [| reflexivity].
  exfalso. apply Hnp. apply participates_categoryEntry. now exists c.
Qed.

(** A documented method is a method of [MethodDocs()] that has no categories
    and is not hidden, or that participates in one of the nine categories: a
    method all of whose categories are other ones is left out of the
    document, whatever its status. *)
Theorem documented_method_origin (name : string) :
  name ∈ documentedMethodNames (methodsContextOf MethodDocs) ->
  exists m,
    m ∈ MethodDocs
    /\ MethodSpec.Name m = name
    /\ ((MethodSpec.Categories m = [] /\ MethodSpec.Status m <> StatusHidden)
        \/ exists cat, cat ∈ methodCategoryList /\ participates m cat).
Proof.
  unfold documentedMethodNames. intros Hname.
  apply list_elem_of_fmap in Hname as (d & -> & Hd).
  apply elem_of_app in Hd as [Hgen | Hcat].
  - rewrite buildGeneral_filter in Hgen.
    apply list_elem_of_fmap in Hgen as (m & -> & Hm).
    apply list_elem_of_filter in Hm as [Hgeneral Hm].
    exists m. split; [exact Hm |]. split; [reflexivity | now left].
  - apply list_elem_of_In, in_concat in Hcat as (l & Hl & Hd).
    apply in_map_iff in Hl as (c & <- & Hc).
    apply list_elem_of_In in Hc. rewrite buildMethodCategories_filter in Hc.
    apply list_elem_of_filter in Hc as [_ Hc].
    apply list_elem_of_fmap in Hc as (cat & -> & Hcat).
    rewrite methodsOfCategory_omap in Hd. simpl in Hd.
    apply list_elem_of_In, list_elem_of_omap in Hd as (m & Hm & Hfor).
    exists m. split; [exact Hm |].
    split; [now apply forCategory_Name in Hfor |].
    right. exists cat. split; [exact Hcat |].
    apply forCategory_Some in Hfor as (c & Hentry & _).
    apply participates_categoryEntry. now exists c.
Qed.

(** The methods document: a General section, written when it has specs, of
    the methods without categories that are not hidden, in the order of
    [MethodDocs()], their descriptions trimmed; then the nine categories in
    the order of the source, each with the methods that participate in it,
    overridden by their entry for it, in the order of [MethodDocs()], less
    the categories nothing participates in; between the header and the
    footer. *)
Theorem methods_grouped_by_category :
  methodsContext.General (methodsContextOf MethodDocs)
  = map (fun m => setDescription m (TrimSpace (MethodSpec.Description m)))
      (filter (fun m => MethodSpec.Categories m = []
                        /\ MethodSpec.Status m <> StatusHidden) MethodDocs)
  /\ methodsContext.Categories (methodsContextOf MethodDocs)
     = filter (fun c => methodCategory.Specs c <> [])
         (map (fun cat =>
                 methodCategory.mk cat (omap (forCategory TrimSpace cat) MethodDocs))
            [ MethodCategoryStrings; MethodCategoryNumbers; MethodCategoryRegexp;
              MethodCategoryTime; MethodCategoryCoercion;
              MethodCategoryObjectAndArray; MethodCategoryParsing;
              MethodCategoryEncoding; MethodCategoryDeprecated ])
  /\ (forall cat m d,
        forCategory TrimSpace cat m = Some d <->
        exists c, categoryEntry m cat = Some c /\ d = overriddenBy TrimSpace m c)
  /\ BloblangMethodsMarkdown TrimSpace MethodCategoryStrings MethodCategoryNumbers
       MethodCategoryRegexp MethodCategoryTime MethodCategoryCoercion
       MethodCategoryObjectAndArray MethodCategoryParsing MethodCategoryEncoding
       MethodCategoryDeprecated StatusHidden MethodDocs
     = (methodsHeader
        +:+ (if nonEmptySlice (methodsContext.General (methodsContextOf MethodDocs))
             then "## General" +:+ nl +:+ nl
                  +:+ concatStrings
                        (map (fun spec => method_spec spec +:+ nl)
                           (methodsContext.General (methodsContextOf MethodDocs)))
             else "")
        +:+ concatStrings
              (map methodCategory_template
                 (methodsContext.Categories (methodsContextOf MethodDocs)))
        +:+ methodsFooter,
        None).
Proof.
  split; [apply buildGeneral_filter |].
  split.
  { rewrite buildMethodCategories_filter. unfold methodCategories.
    f_equal. apply map_ext. intros cat. apply methodsOfCategory_omap. }
  split; [| reflexivity].
  intros cat m d. split; [apply forCategory_Some |].
  intros (c & Hentry & ->).
  unfold forCategory, methodForCat. rewrite methodForCatFrom_find.
  unfold categoryEntry in Hentry. now rewrite Hentry.
Qed.

(** When every method of [MethodDocs()] is hidden without categories or has
    only categories other than the nine, an empty registry included, the
    document is the header followed by the footer. *)
Theorem methods_document_without_sections :
  (forall m, m ∈ MethodDocs ->
     (MethodSpec.Categories m = [] /\ MethodSpec.Status m = StatusHidden)
     \/ (MethodSpec.Categories m <> []
         /\ forall c, c ∈ MethodSpec.Categories m ->
                      MethodCatSpec.Category c ∉ methodCategoryList)) ->
  BloblangMethodsMarkdown TrimSpace MethodCategoryStrings MethodCategoryNumbers
    MethodCategoryRegexp MethodCategoryTime MethodCategoryCoercion
    MethodCategoryObjectAndArray MethodCategoryParsing MethodCategoryEncoding
    MethodCategoryDeprecated StatusHidden MethodDocs
  = (methodsHeader +:+ methodsFooter, None).
Proof.
  intros Hnone. unfold BloblangMethodsMarkdown, methods_template.
  rewrite buildGeneral_filter, buildMethodCategories_filter.
  rewrite (filter_none (fun m => MethodSpec.Categories m = []
                                 /\ MethodSpec.Status m <> StatusHidden)).
  - rewrite filter_none; [reflexivity |].
    intros c Hc Hspecs. apply list_elem_of_fmap in Hc as (cat & -> & Hcat).
    apply Hspecs. rewrite methodsOfCategory_omap. simpl.
    apply omap_none. intros m Hm. apply forCategory_None.
    intros (c & Hc & Heq).
    destruct (Hnone m Hm) as [[Hcats _] | [_ Hother]].
    + rewrite Hcats in Hc. now apply elem_of_nil in Hc.
    + apply (Hother c Hc). now rewrite Heq.
  - intros m Hm [Hcats Hstatus].
    destruct (Hnone m Hm) as [[_ Hhidden] | [Hsome _]]; contradiction.
Qed.

End MethodsMoreFacts.

Lemma documented_method_origin_witness :
  exists m,
    m ∈ [Sample.uppercase; Sample.hiddenMethod; SampleMore.customMethod]
    /\ MethodSpec.Name m = "uppercase"
    /\ ((MethodSpec.Categories m = [] /\ MethodSpec.Status m <> Sample.StatusHidden)
        \/ exists cat,
             cat ∈ methodCategories "Strings" "Numbers" "Regexp" "Time" "Coercion"
                     "ObjectAndArray" "Parsing" "Encoding" "Deprecated"
             /\ participates m cat).
Proof.
  apply (documented_method_origin Sample.TrimSpace
           "Strings" "Numbers" "Regexp" "Time" "Coercion" "ObjectAndArray"
           "Parsing" "Encoding" "Deprecated" Sample.StatusHidden
           [Sample.uppercase; Sample.hiddenMethod; SampleMore.customMethod]
           "uppercase").
  apply list_elem_of_In. vm_compute. tauto.
Defined.

Lemma methods_document_without_sections_witness :
  BloblangMethodsMarkdown Sample.TrimSpace
    "Strings" "Numbers" "Regexp" "Time" "Coercion" "ObjectAndArray"
    "Parsing" "Encoding" "Deprecated" Sample.StatusHidden
    [Sample.hiddenMethod; SampleMore.customMethod]
  = (methodsHeader +:+ methodsFooter, None).
Proof.
  apply (methods_document_without_sections Sample.TrimSpace
           "Strings" "Numbers" "Regexp" "Time" "Coercion" "ObjectAndArray"
           "Parsing" "Encoding" "Deprecated" Sample.StatusHidden
           [Sample.hiddenMethod; SampleMore.customMethod]).
  intros m Hm. apply list_elem_of_In in Hm. simpl in Hm.
  destruct Hm as [<- | [<- | []]].
  - left. split; reflexivity.
  - right. split; [discriminate |].
    intros c Hc Hcat. apply list_elem_of_In in Hc. simpl in Hc.
    destruct Hc as [<- | []].
    apply list_elem_of_In in Hcat. simpl in Hcat.
    repeat (destruct Hcat as [Hcat | Hcat]; [discriminate Hcat |]).
    exact Hcat.
Defined.

(** ** More on the redis_streams output *)

Lemma find_app_first {A : Type} (f : A -> bool) (l1 l2 : list A) :
  List.find f (l1 ++ l2)
  = match List.find f l1 with
    | Some x => Some x
    | None => List.find f l2
    end.
Proof.
  induction l1 as [| x l1 IH]; simpl; [reflexivity |].
  now destruct (f x).
Qed.

Lemma lastValue_cons (k k' v' : string) (pairs : list (string * string)) :
  lastValue k ((k', v') :: pairs)
  = match lastValue k pairs with
    | Some v => Some v
    | None => if String.eqb k' k then Some v' else None
    end.
Proof.
  unfold lastValue. simpl rev. rewrite find_app_first.
  destruct (List.find _ (rev pairs)) as [kv |]; simpl; [reflexivity |].
  now destruct (String.eqb k' k).
Qed.

(** Inserting the pairs in order leaves, under a key, the value of the last
    pair of that key. *)
Lemma fold_insert_last (pairs : list (string * string))
    (m : gmap string redisValue) (k : string) :
  fold_left (fun values kv => <[fst kv := ValString (snd kv)]> values) pairs m !! k
  = match lastValue k pairs with
    | Some v => Some (ValString v)
    | None => m !! k
    end.
Proof.
  revert m. induction pairs as [| [k' v'] pairs IH]; intros m; [reflexivity |].
  simpl fold_left. rewrite IH, lastValue_cons.
  destruct (lastValue k pairs) as [v |]; [reflexivity |]. simpl.
  destruct (String.eqb_spec k' k) as [-> | Hne].
  - apply lookup_insert_eq.
  - now apply lookup_insert_ne.
Qed.

Lemma fold_insert_dom (pairs : list (string * string)) (m : gmap string redisValue) :
  dom (fold_left (fun values kv => <[fst kv := ValString (snd kv)]> values) pairs m)
  = dom m ∪ list_to_set (map fst pairs).
Proof.
  revert m. induction pairs as [| [k v] pairs IH]; intros m; simpl.
  - now rewrite union_empty_r_L.
  - rewrite IH, dom_insert_L.
    rewrite (union_comm_L {[k]} (dom m)). now rewrite <- union_assoc_L.
Qed.

Lemma failuresFrom_elem (cmders : list (option error)) :
  forall (i j : nat) (e : error),
    Failed j e ∈ failuresFrom i cmders
    <-> exists n, j = (i + n)%nat /\ cmders !! n = Some (Some e).
Proof.
  induction cmders as [| res rest IH]; intros i j e; simpl.
  - split; [intros H; now apply elem_of_nil in H | intros (n & _ & H); discriminate].
  - destruct res as [e' |].
    + rewrite elem_of_cons, IH. split.
      * intros [[= -> ->] | (n & -> & Hn)].
        -- exists 0%nat. split; [lia | reflexivity].
        -- exists (S n). split; [lia | exact Hn].
      * intros ([| n] & -> & Hn).
        -- left. simpl in Hn. injection Hn as ->. f_equal. lia.
        -- right. exists n. split; [lia | exact Hn].
    + rewrite IH. split.
      * intros (n & -> & Hn). exists (S n). split; [lia | exact Hn].
      * intros ([| n] & -> & Hn); [discriminate |].
        exists n. split; [lia | exact Hn].
Qed.

Lemma failuresFrom_head (cmders : list (option error)) :
  forall (k i : nat) (e : error),
    cmders !! i = Some (Some e) ->
    (forall j e', (j < i)%nat -> cmders !! j <> Some (Some e')) ->
    exists later, failuresFrom k cmders = Failed (k + i) e :: later.
Proof.
  induction cmders as [| res rest IH]; intros k i e Hi Hfirst; [discriminate |].
  destruct i as [| i].
  - simpl in Hi. injection Hi as ->. simpl. rewrite Nat.add_0_r. eauto.
  - destruct res as [e' |].
    + exfalso. apply (Hfirst 0%nat e'); [lia | reflexivity].
    + simpl. destruct (IH (S k) i e Hi) as (later & Hlater).
      * intros j e' Hj. apply (Hfirst (S j) e'). lia.
      * exists later. rewrite Hlater. f_equal. f_equal. lia.
Qed.

Lemma failuresFrom_nil (cmders : list (option error)) (k : nat) :
  failuresFrom k cmders = [] <-> forall i e, cmders !! i <> Some (Some e).
Proof.
  split.
  - intros Hnil i e Hi.
    assert (Hin : Failed (k + i) e ∈ failuresFrom k cmders)
      by (apply failuresFrom_elem; eauto).
    rewrite Hnil in Hin. now apply elem_of_nil in Hin.
  - revert k. induction cmders as [| res rest IH]; intros k Hnone; [reflexivity |].
    destruct res as [e |].
    + exfalso. apply (Hnone 0%nat e). reflexivity.
    + simpl. apply IH. intros i e. apply (Hnone (S i) e).
Qed.

Lemma collectFailures_started (cmders : list (option error)) :
  forall (i : nat) (headline : error) (failed : list failure),
    snd (fold_left
           (fun st res =>
              let '(i, batchErr) := st in
              match res with
              | None => (S i, batchErr)
              | Some e =>
                match batchErr with
                | Some (BatchErr headline failed) =>
                  (S i, Some (BatchErr headline (failed ++ [Failed i e])))
                | _ => (S i, Some (BatchErr e [Failed i e]))
                end
              end)
           cmders (i, Some (BatchErr headline failed)))
    = Some (BatchErr headline (failed ++ failuresFrom i cmders)).
Proof.
  induction cmders as [| res rest IH]; intros i headline failed; simpl.
  - now rewrite app_nil_r.
  - destruct res as [e |]; rewrite IH; [| reflexivity].
    now rewrite <- app_assoc.
Qed.

(** The loop over [cmders] returns nil when no command failed, and
    otherwise the batch error of the first failure with all the failures. *)
Lemma collectFailures_failuresFrom (cmders : list (option error)) :
  collectFailures cmders
  = match failuresFrom 0 cmders with
    | [] => None
    | Failed _ e :: _ => Some (BatchErr e (failuresFrom 0 cmders))
    end.
Proof.
  unfold collectFailures. generalize 0%nat as i.
  induction cmders as [| res rest IH]; intros i; simpl; [reflexivity |].
  destruct res as [e |]; [| apply IH].
  now rewrite collectFailures_started.
Qed.

Section RedisMoreFacts.

Variable Part : Type.
Variable AsBytes : Part -> list Byte.byte.
Variable Expression : Type.
Variable NewField : string -> result Expression.
Variable fieldString : Expression -> nat -> list Part -> string.
Variables ExcludeFilterConfig ExcludeFilter : Type.
Variable Filter : ExcludeFilterConfig -> result ExcludeFilter.
Variable Iter : ExcludeFilter -> Part -> list (string * string).
Variable ClientConfig : Type.
Variable clientFromConfig : ClientConfig -> result UniversalClient.t.
Variable ErrNotConnected : error.

Local Abbreviation writer :=
  (redisStreamsWriter Expression ExcludeFilterConfig ExcludeFilter ClientConfig).

(** The keys of an entry are the body key and the keys of the metadata the
    filter lets through, and nothing else. *)
Theorem partToMap_keys (r : writer) (p : Part) :
  dom (partToMap AsBytes Iter r p)
  = {[ BodyKey (conf r) ]} ∪ list_to_set (map fst (Iter (metaFilter r) p)).
Proof.
  unfold partToMap. rewrite dom_insert_L, fold_insert_dom, dom_empty_L.
  now rewrite union_empty_l_L.
Qed.

(** Under a key other than the body key an entry holds the metadata value
    of that key, the last one when the filter visits the key more than
    once, and nothing when it does not visit it. *)
Theorem partToMap_metadata_value (r : writer) (p : Part) (k : string) :
  k <> BodyKey (conf r) ->
  partToMap AsBytes Iter r p !! k
  = ValString <$> lastValue k (Iter (metaFilter r) p).
Proof.
  intros Hne. unfold partToMap.
  rewrite lookup_insert_ne by congruence.
  rewrite fold_insert_last, lookup_empty.
  now destruct (lastValue k (Iter (metaFilter r) p)).
Qed.

(** [newRedisStreamsWriter] returns a writer exactly when the stream field
    parses, the metadata filter can be built and the client configuration is
    valid.  A filter that cannot be built is reported, once the field has
    parsed, with its error wrapped; a client configuration that is not
    valid, once both have succeeded, with the error of the client as it
    is. *)
Theorem newRedisStreamsWriter_outcomes
    (conf : RedisStreamsConfig ExcludeFilterConfig ClientConfig) :
  ((exists r : writer,
       newRedisStreamsWriter NewField Filter clientFromConfig conf = Ok r)
   <-> (exists e f c,
          NewField (Stream conf) = Ok e
          /\ Filter (Metadata conf) = Ok f
          /\ clientFromConfig (Config conf) = Ok c))
  /\ (forall e err,
        NewField (Stream conf) = Ok e ->
        Filter (Metadata conf) = Err err ->
        newRedisStreamsWriter NewField Filter clientFromConfig conf
        = Err (WrapError
                 ("failed to construct metadata filter: " +:+ errorText err) err))
  /\ (forall e f err,
        NewField (Stream conf) = Ok e ->
        Filter (Metadata conf) = Ok f ->
        clientFromConfig (Config conf) = Err err ->
        newRedisStreamsWriter NewField Filter clientFromConfig conf = Err err).
Proof.
  unfold newRedisStreamsWriter. split; [split |].
  - intros (r & Hr).
    destruct (NewField (Stream conf)) as [e |]; [| discriminate].
    destruct (Filter (Metadata conf)) as [f |]; [| discriminate].
    destruct (clientFromConfig (Config conf)) as [c |]; [| discriminate].
    now exists e, f, c.
  - intros (e & f & c & -> & -> & ->). eauto.
  - split.
    + intros e err -> ->. reflexivity.
    + intros e f err -> -> ->. reflexivity.
Qed.


(** [Close] leaves the writer without client; closing a writer that has
    none does nothing and returns nil, so that closing twice closes the
    client once. *)
Theorem Close_idempotent (r : writer) :
  client (fst (fst (Close r))) = None
  /\ Close (fst (fst (Close r))) = (fst (fst (Close r)), [], None)
  /\ (forall c, client r = Some c ->
                Close r = (setClient r None, [Closed], UniversalClient.Close c)).
Proof.
  unfold Close, disconnect.
  destruct (client r) as [c |] eqn:Hclient; simpl.
  - split; [reflexivity |]. split; [reflexivity |].
    intros c' [= <-]. reflexivity.
  - rewrite Hclient. split; [reflexivity |]. split; [reflexivity |].
    intros c' Hc'. discriminate Hc'.
Qed.



(** When the [Exec] of a pipeline succeeds, the writer stays connected and
    [WriteBatch] returns nil exactly when no command of the pipeline
    failed; otherwise it returns a batch error whose error is the one of
    the first command that failed and which marks as failed the indexes of
    the commands that failed, each with its error, and no other. *)
Theorem WriteBatch_pipeline_failures (r : writer) (c : UniversalClient.t)
    (msg : list Part) (cmders : list (option error)) :
  client r = Some c ->
  length msg <> 1%nat ->
  UniversalClient.PipelineExec c (queueBatch AsBytes fieldString Iter r msg)
  = (cmders, None) ->
  fst (fst (WriteBatch AsBytes fieldString Iter ErrNotConnected r msg)) = r
  /\ (snd (WriteBatch AsBytes fieldString Iter ErrNotConnected r msg) = None
      <-> forall i e, cmders !! i <> Some (Some e))
  /\ (forall i e,
        cmders !! i = Some (Some e) ->
        (forall j e', (j < i)%nat -> cmders !! j <> Some (Some e')) ->
        exists failed,
          snd (WriteBatch AsBytes fieldString Iter ErrNotConnected r msg)
          = Some (BatchErr e failed)
          /\ forall j e', Failed j e' ∈ failed <-> cmders !! j = Some (Some e')).
Proof.
  intros Hclient Hlen Hexec.
  assert (Hresult : WriteBatch AsBytes fieldString Iter ErrNotConnected r msg
                    = (r, [SentPipeline (queueBatch AsBytes fieldString Iter r msg)],
                       collectFailures cmders)).
  { unfold WriteBatch. rewrite Hclient.
    destruct msg as [| p [| q rest]]; [| simpl in Hlen; congruence |];
      now rewrite Hexec. }
  rewrite Hresult. simpl. rewrite collectFailures_failuresFrom.
  split; [reflexivity |]. split.
  - rewrite <- (failuresFrom_nil cmders 0).
    destruct (failuresFrom 0 cmders) as [| [j e'] later]; split;
      congruence.
  - intros i e Hi Hfirst.
    destruct (failuresFrom_head cmders 0 i e Hi Hfirst) as (later & Hhead).
    exists (failuresFrom 0 cmders). split; [now rewrite Hhead |].
    intros j e'. rewrite failuresFrom_elem. split.
    + intros (n & -> & Hn). exact Hn.
    + intros Hj. now exists j.
Qed.

End RedisMoreFacts.

Section RedisCallsFacts.

Variable Part : Type.
Variable AsBytes : Part -> list Byte.byte.
Variable Expression : Type.
Variable NewField : string -> result Expression.
Variable fieldString : Expression -> nat -> list Part -> string.
Variables ExcludeFilterConfig ExcludeFilter : Type.
Variable Filter : ExcludeFilterConfig -> result ExcludeFilter.
Variable Iter : ExcludeFilter -> Part -> list (string * string).
Variable ClientConfig : Type.
Variable clientFromConfig : ClientConfig -> result UniversalClient.t.
Variable ErrNotConnected : error.

Local Abbreviation writer :=
  (redisStreamsWriter Expression ExcludeFilterConfig ExcludeFilter ClientConfig).

Local Abbreviation runCalls :=
  (run AsBytes fieldString Iter clientFromConfig ErrNotConnected).

Local Abbreviation stepCall :=
  (step AsBytes fieldString Iter clientFromConfig ErrNotConnected).

Lemma commandsOf_app (a b : list event) :
  commandsOf (a ++ b) = commandsOf a ++ commandsOf b.
Proof.
  induction a as [| e a IH]; [reflexivity |].
  destruct e; simpl; rewrite IH; try reflexivity. now rewrite app_assoc.
Qed.

(** An XADD is built from the configuration, the compiled field and the
    filter of the writer, and from nothing else of it. *)
Lemma xaddArgs_ext (r1 r2 : writer) (msg : list Part) (i : nat) (p : Part) :
  conf r1 = conf r2 -> stream r1 = stream r2 -> metaFilter r1 = metaFilter r2 ->
  xaddArgs AsBytes fieldString Iter r1 msg i p
  = xaddArgs AsBytes fieldString Iter r2 msg i p.
Proof.
  intros Hconf Hstream Hfilter. unfold xaddArgs, partToMap.
  now rewrite Hconf, Hstream, Hfilter.
Qed.

Lemma step_frame (r : writer) (c : call Part) :
  conf (fst (fst (stepCall r c))) = conf r
  /\ stream (fst (fst (stepCall r c))) = stream r
  /\ metaFilter (fst (fst (stepCall r c))) = metaFilter r.
Proof.
  destruct c as [| msg |]; simpl.
  - unfold Connect.
    destruct (clientFromConfig (Config (conf r))) as [c |]; [| now repeat split].
    destruct (UniversalClient.Ping c); now repeat split.
  - unfold WriteBatch, lostConnection, disconnect.
    destruct (client r) as [c |]; [| now repeat split].
    destruct msg as [| p [| q rest]].
    + destruct (UniversalClient.PipelineExec c _) as [cmders [err |]]; now repeat split.
    + destruct (UniversalClient.XAdd c _) as [err |]; now repeat split.
    + destruct (UniversalClient.PipelineExec c _) as [cmders [err |]]; now repeat split.
  - unfold Close, disconnect. destruct (client r); now repeat split.
Qed.

Lemma step_commands (r : writer) (c : call Part) (args : XAddArgs.t) :
  args ∈ commandsOf (snd (fst (stepCall r c))) ->
  exists msg i p,
    c = CallWriteBatch msg /\ msg !! i = Some p
    /\ args = xaddArgs AsBytes fieldString Iter r msg i p.
Proof.
  destruct c as [| msg |]; simpl.
  - unfold Connect.
    destruct (clientFromConfig (Config (conf r))) as [c |];
      [destruct (UniversalClient.Ping c) |]; simpl;
      intros H; now apply elem_of_nil in H.
  - destruct (client r) as [c |] eqn:Hclient.
    + erewrite WriteBatch_commands by exact Hclient.
      intros Hin. apply list_elem_of_lookup in Hin as (i & Hi).
      rewrite list_lookup_imap in Hi.
      destruct (msg !! i) as [p |] eqn:Hp; [| discriminate].
      injection Hi as <-. now exists msg, i, p.
    + unfold WriteBatch. rewrite Hclient. simpl.
      intros H. now apply elem_of_nil in H.
  - unfold Close, disconnect. destruct (client r); simpl;
      intros H; now apply elem_of_nil in H.
Qed.

Lemma run_commands (calls : list (call Part)) :
  forall r : writer,
    conf (fst (runCalls r calls)) = conf r
    /\ stream (fst (runCalls r calls)) = stream r
    /\ metaFilter (fst (runCalls r calls)) = metaFilter r
    /\ forall args,
         args ∈ commandsOf (snd (runCalls r calls)) ->
         exists msg i p,
           CallWriteBatch msg ∈ calls /\ msg !! i = Some p
           /\ args = xaddArgs AsBytes fieldString Iter r msg i p.
Proof.
  induction calls as [| c rest IH]; intros r; simpl.
  - repeat split. intros args H. now apply elem_of_nil in H.
  - pose proof (step_frame r c) as (Hconf & Hstream & Hfilter).
    pose proof (step_commands r c) as Hstep.
    destruct (stepCall r c) as [[r' events] err]; simpl in *.
    specialize (IH r') as (Hconf' & Hstream' & Hfilter' & Hlater).
    destruct (runCalls r' rest) as [r'' later]; simpl in *.
    split; [congruence |]. split; [congruence |]. split; [congruence |].
    intros args Hin. rewrite commandsOf_app in Hin.
    apply elem_of_app in Hin as [Hnow | Hthen].
    + destruct (Hstep args Hnow) as (msg & i & p & -> & Hp & ->).
      exists msg, i, p. split; [left |]. now split.
    + destruct (Hlater args Hthen) as (msg & i & p & Hcall & Hp & ->).
      exists msg, i, p. split; [now right |]. split; [exact Hp |].
      now apply xaddArgs_ext.
Qed.

(** Whatever the calls made on a writer, in whatever order, its
    configuration, its compiled field and its filter stay what they were,
    and every XADD handed to a client is the one of a message of a batch
    that was written: its ID is [*], its stream is the field evaluated at
    the index of the message in its batch, its length cap is the configured
    one and its values are those of the message. *)
Theorem run_sends_written_messages (r : writer) (calls : list (call Part)) :
  conf (fst (runCalls r calls)) = conf r
  /\ stream (fst (runCalls r calls)) = stream r
  /\ metaFilter (fst (runCalls r calls)) = metaFilter r
  /\ forall args,
       args ∈ commandsOf (snd (runCalls r calls)) ->
       exists msg i p,
         CallWriteBatch msg ∈ calls /\ msg !! i = Some p
         /\ XAddArgs.ID args = "*"
         /\ XAddArgs.Stream args = fieldString (stream r) i msg
         /\ XAddArgs.MaxLenApprox args = MaxLenApprox (conf r)
         /\ XAddArgs.Values args = partToMap AsBytes Iter r p.
Proof.
  destruct (run_commands calls r) as (Hconf & Hstream & Hfilter & Hsent).
  split; [exact Hconf |]. split; [exact Hstream |]. split; [exact Hfilter |].
  intros args Hin. destruct (Hsent args Hin) as (msg & i & p & Hcall & Hp & ->).
  exists msg, i, p. now repeat split.
Qed.

(** A writer built from a configuration only ever sends to streams computed
    by the expression its stream field compiled to, with the configured
    length cap and the body of the message under the configured body key. *)
Theorem built_writer_sends_with_compiled_field
    (config : RedisStreamsConfig ExcludeFilterConfig ClientConfig) (r : writer)
    (calls : list (call Part)) (args : XAddArgs.t) :
  newRedisStreamsWriter NewField Filter clientFromConfig config = Ok r ->
  args ∈ commandsOf (snd (runCalls r calls)) ->
  exists e msg i p,
    NewField (Stream config) = Ok e
    /\ CallWriteBatch msg ∈ calls /\ msg !! i = Some p
    /\ XAddArgs.Stream args = fieldString e i msg
    /\ XAddArgs.MaxLenApprox args = MaxLenApprox config
    /\ XAddArgs.Values args !! BodyKey config = Some (ValBytes (AsBytes p)).
Proof.
  intros Hbuilt Hin.
  destruct (run_commands calls r) as (_ & _ & _ & Hsent).
  destruct (Hsent args Hin) as (msg & i & p & Hcall & Hp & ->).
  unfold newRedisStreamsWriter in Hbuilt.
  destruct (NewField (Stream config)) as [e |]; [| discriminate].
  destruct (Filter (Metadata config)) as [f |]; [| discriminate].
  destruct (clientFromConfig (Config config)) as [c |]; [| discriminate].
  injection Hbuilt as <-.
  exists e, msg, i, p. simpl. repeat split; try assumption.
  unfold partToMap. simpl. apply lookup_insert_eq.
Qed.

(** A writer without client on which [Connect] is not called sends nothing
    and stays as it is, whatever is written to it and however often it is
    closed: this is the state [newRedisStreamsWriter] returns a writer in,
    and the one [Close] and a lost connection leave it in. *)
Theorem run_not_connected (r : writer) (calls : list (call Part)) :
  client r = None ->
  CallConnect ∉ calls ->
  runCalls r calls = (r, []).
Proof.
  intros Hclient. induction calls as [| c rest IH]; intros Hcalls; [reflexivity |].
  assert (Hrest : CallConnect ∉ rest) by (intros H; apply Hcalls; now right).
  simpl. destruct c as [| msg |].
  - exfalso. apply Hcalls. left.
  - simpl. unfold WriteBatch. rewrite Hclient. now rewrite (IH Hrest).
  - simpl. unfold Close, disconnect. rewrite Hclient. now rewrite (IH Hrest).
Qed.

End RedisCallsFacts.

Section RedisOutputFacts.

Variable Expression : Type.
Variable NewField : string -> result Expression.
Variables ExcludeFilterConfig ExcludeFilter : Type.
Variable Filter : ExcludeFilterConfig -> result ExcludeFilter.
Variable ClientConfig : Type.
Variable clientFromConfig : ClientConfig -> result UniversalClient.t.
Variables OutputConfig BatchPolicy AsyncWriter Streamed : Type.
Variable RedisStreams : OutputConfig -> RedisStreamsConfig ExcludeFilterConfig ClientConfig.
Variable MaxInFlight : RedisStreamsConfig ExcludeFilterConfig ClientConfig -> Z.
Variable Batching : RedisStreamsConfig ExcludeFilterConfig ClientConfig -> BatchPolicy.
Variable NewAsyncWriter :
  string -> Z ->
  redisStreamsWriter Expression ExcludeFilterConfig ExcludeFilter ClientConfig ->
  result AsyncWriter.
Variable NewFromConfig : BatchPolicy -> AsyncWriter -> result Streamed.

(** When the writer cannot be built, for a stream field that does not parse
    or for another reason, [newRedisStreamsOutput] returns no output and the
    error of the writer as it is. *)
Theorem newRedisStreamsOutput_writer_error (conf : OutputConfig) (err : error) :
  newRedisStreamsWriter NewField Filter clientFromConfig (RedisStreams conf) = Err err ->
  newRedisStreamsOutput NewField Filter clientFromConfig RedisStreams MaxInFlight
    Batching NewAsyncWriter NewFromConfig conf
  = Err err.
Proof. intros Hw. unfold newRedisStreamsOutput. now rewrite Hw. Qed.

(** An output that is returned is the batcher's, built on the asynchronous
    writer named redis_streams with the configured number of messages in
    flight, itself built on a writer whose stream field parsed. *)
Theorem newRedisStreamsOutput_built (conf : OutputConfig) (out : Streamed) :
  newRedisStreamsOutput NewField Filter clientFromConfig RedisStreams MaxInFlight
    Batching NewAsyncWriter NewFromConfig conf
  = Ok out ->
  exists e w a,
    NewField (Stream (RedisStreams conf)) = Ok e
    /\ newRedisStreamsWriter NewField Filter clientFromConfig (RedisStreams conf) = Ok w
    /\ stream w = e
    /\ NewAsyncWriter "redis_streams" (MaxInFlight (RedisStreams conf)) w = Ok a
    /\ NewFromConfig (Batching (RedisStreams conf)) a = Ok out.
Proof.
  unfold newRedisStreamsOutput, newRedisStreamsWriter.
  destruct (NewField (Stream (RedisStreams conf))) as [e |]; [| discriminate].
  destruct (Filter (Metadata (RedisStreams conf))) as [f |]; [| discriminate].
  destruct (clientFromConfig (Config (RedisStreams conf))) as [c |]; [| discriminate].
  destruct (NewAsyncWriter _ _ _) as [a |] eqn:Ha; [| discriminate].
  intros Hout. eexists e, _, a. now repeat split.
Qed.

End RedisOutputFacts.

Lemma newRedisStreamsOutput_writer_error_witness :
  SampleMore.outputOf "events-${! ? }" 64
  = Err (ErrorString "failed to parse expression: unexpected ?").
Proof.
  apply (newRedisStreamsOutput_writer_error string Sample.fieldNew
           (list string) (list string) Sample.Filter unit Sample.clientFromConfig
           (RedisStreamsConfig (list string) unit * Z) unit (string * Z) (string * Z)
           (fun conf => fst conf) (fun _ => 64) (fun _ => tt)
           SampleMore.NewAsyncWriter SampleMore.NewFromConfig
           (Sample.streamsConfig "events-${! ? }", 64)).
  vm_compute. reflexivity.
Defined.

Lemma newRedisStreamsOutput_built_witness :
  exists e w a,
    Sample.fieldNew (Stream (Sample.streamsConfig "events-")) = Ok e
    /\ newRedisStreamsWriter Sample.fieldNew Sample.Filter Sample.clientFromConfig
         (Sample.streamsConfig "events-") = Ok w
    /\ stream w = e
    /\ SampleMore.NewAsyncWriter "redis_streams" 64 w = Ok a
    /\ SampleMore.NewFromConfig tt a = Ok ("redis_streams", 64).
Proof.
  apply (newRedisStreamsOutput_built string Sample.fieldNew
           (list string) (list string) Sample.Filter unit Sample.clientFromConfig
           (RedisStreamsConfig (list string) unit * Z) unit (string * Z) (string * Z)
           (fun conf => fst conf) (fun _ => 64) (fun _ => tt)
           SampleMore.NewAsyncWriter SampleMore.NewFromConfig
           (Sample.streamsConfig "events-", 64) ("redis_streams", 64)).
  vm_compute. reflexivity.
Defined.

Lemma partToMap_metadata_value_witness :
  partToMap Sample.body Sample.Iter Sample.connectedWriter
    (Sample.mkPart [("tenant", "a"); ("kafka_key", "k"); ("tenant", "b")] []) !! "tenant"
  = ValString
      <$> lastValue "tenant"
            (Sample.Iter (metaFilter Sample.connectedWriter)
               (Sample.mkPart [("tenant", "a"); ("kafka_key", "k"); ("tenant", "b")] [])).
Proof.
  apply (partToMap_metadata_value Sample.Part Sample.body string
           (list string) (list string) Sample.Iter unit Sample.connectedWriter).
  discriminate.
Defined.

(** Of two metadata values under one key the later is sent. *)
Example partToMap_last_value :
  partToMap Sample.body Sample.Iter Sample.connectedWriter
    (Sample.mkPart [("tenant", "a"); ("kafka_key", "k"); ("tenant", "b")] []) !! "tenant"
  = Some (ValString "b").
Proof. vm_compute. reflexivity. Qed.


Lemma WriteBatch_pipeline_failures_witness :
  fst (fst (WriteBatch Sample.body Sample.fieldString Sample.Iter
              Sample.ErrNotConnected SampleMore.flakyWriter
              [Sample.partA; Sample.partB; Sample.partA]))
  = SampleMore.flakyWriter
  /\ (snd (WriteBatch Sample.body Sample.fieldString Sample.Iter
             Sample.ErrNotConnected SampleMore.flakyWriter
             [Sample.partA; Sample.partB; Sample.partA]) = None
      <-> forall i e, [None; Some SampleMore.streamFull; None] !! i <> Some (Some e))
  /\ (forall i e,
        [None; Some SampleMore.streamFull; None] !! i = Some (Some e) ->
        (forall j e', (j < i)%nat ->
                      [None; Some SampleMore.streamFull; None] !! j <> Some (Some e')) ->
        exists failed,
          snd (WriteBatch Sample.body Sample.fieldString Sample.Iter
                 Sample.ErrNotConnected SampleMore.flakyWriter
                 [Sample.partA; Sample.partB; Sample.partA])
          = Some (BatchErr e failed)
          /\ forall j e',
               Failed j e' ∈ failed
               <-> [None; Some SampleMore.streamFull; None] !! j = Some (Some e')).
Proof.
  apply (WriteBatch_pipeline_failures Sample.Part Sample.body string
           Sample.fieldString (list string) (list string) Sample.Iter unit
           Sample.ErrNotConnected SampleMore.flakyWriter SampleMore.flakyClient
           [Sample.partA; Sample.partB; Sample.partA]
           [None; Some SampleMore.streamFull; None]).
  - reflexivity.
  - simpl. lia.
  - vm_compute. reflexivity.
Defined.

(** The second of three commands fails: the batch error is its error and
    marks the index 1. *)
Example WriteBatch_batch_error :
  snd (WriteBatch Sample.body Sample.fieldString Sample.Iter
         Sample.ErrNotConnected SampleMore.flakyWriter
         [Sample.partA; Sample.partB; Sample.partA])
  = Some (BatchErr SampleMore.streamFull [Failed 1 SampleMore.streamFull]).
Proof. vm_compute. reflexivity. Qed.

Lemma built_writer_sends_with_compiled_field_witness :
  exists e msg i p,
    Sample.fieldNew (Stream (Sample.streamsConfig "events-")) = Ok e
    /\ CallWriteBatch msg ∈ [CallConnect; CallWriteBatch [Sample.partA; Sample.partB]]
    /\ msg !! i = Some p
    /\ XAddArgs.Stream
         (XAddArgs.mk "*" "events-b" 0
            (<["body" := ValBytes []]> {["tenant" := ValString "b"]}))
       = Sample.fieldString e i msg
    /\ XAddArgs.MaxLenApprox
         (XAddArgs.mk "*" "events-b" 0
            (<["body" := ValBytes []]> {["tenant" := ValString "b"]}))
       = MaxLenApprox (Sample.streamsConfig "events-")
    /\ XAddArgs.Values
         (XAddArgs.mk "*" "events-b" 0
            (<["body" := ValBytes []]> {["tenant" := ValString "b"]}))
       !! BodyKey (Sample.streamsConfig "events-")
       = Some (ValBytes (Sample.body p)).
Proof.
  apply (built_writer_sends_with_compiled_field Sample.Part Sample.body string
           Sample.fieldNew Sample.fieldString (list string) (list string)
           Sample.Filter Sample.Iter unit Sample.clientFromConfig
           Sample.ErrNotConnected (Sample.streamsConfig "events-")
           SampleMore.freshWriter
           [CallConnect; CallWriteBatch [Sample.partA; Sample.partB]]).
  - vm_compute. reflexivity.
  - apply list_elem_of_In. vm_compute. right. left. reflexivity.
Defined.

Lemma run_not_connected_witness :
  run Sample.body Sample.fieldString Sample.Iter Sample.clientFromConfig
    Sample.ErrNotConnected SampleMore.freshWriter
    [CallWriteBatch [Sample.partA]; CallClose; CallWriteBatch [Sample.partA; Sample.partB]]
  = (SampleMore.freshWriter, []).
Proof.
  apply (run_not_connected Sample.Part Sample.body string Sample.fieldString
           (list string) (list string) Sample.Iter unit Sample.clientFromConfig
           Sample.ErrNotConnected SampleMore.freshWriter).
  - reflexivity.
  - intros Hin. apply list_elem_of_In in Hin. simpl in Hin.
    destruct Hin as [H | [H | [H | []]]]; discriminate H.
Defined.

(** Connected, written to, closed and written to again: the two messages of
    the batch are sent, the client is closed, and the last batch is not
    sent. *)
Example run_connect_write_close_write :
  snd (run Sample.body Sample.fieldString Sample.Iter Sample.clientFromConfig
         Sample.ErrNotConnected SampleMore.freshWriter
         [CallConnect; CallWriteBatch [Sample.partA; Sample.partB]; CallClose;
          CallWriteBatch [Sample.partB]])
  = [ LogInfof ("Pushing messages to Redis stream: events-" +:+ nl);
      SentPipeline
        [ XAddArgs.mk "*" "events-a" 0
            (<["body" := ValBytes Sample.hello]> {["tenant" := ValString "a"]});
          XAddArgs.mk "*" "events-b" 0
            (<["body" := ValBytes []]> {["tenant" := ValString "b"]}) ];
      Closed ].
Proof. vm_compute. reflexivity. Qed.
